(** * hack/check-trivy.py: the ignore-list check against the Debian tracker

    A shallow embedding of [hack/check-trivy.py] and the properties of its
    specification.  The script reads the identifiers of a [.trivyignore]
    file, downloads the JSON export of the Debian security tracker and
    exits with a failure status when an ignored identifier is resolved for
    the distribution given on the command line, or when an ignored
    identifier could not be confirmed in the export.

    Python values are modelled as they are at run time: a [str] is its
    sequence of code points, the result of [json.loads] is a tree of
    dictionaries, lists and scalars, a dictionary is the list of its items
    in insertion order.  The script's statements run in a state and
    exception monad whose state holds the two variables the main block
    mutates ([ignored_cves], [resolved]) and the trace of the calls that
    reach the outside world.

    The model starts where the main block has parsed its command line and
    set up its logger.  The file is given as the lines its iteration
    yields, the response as its status code and the value [json.loads]
    makes of its body. *)

From Stdlib Require Import List ZArith NArith String Ascii Bool Lia.
From Stdlib Require Import Permutation.
Import ListNotations.

Set Implicit Arguments.
Set Warnings "-register-all".

(** ** Python strings *)

Module PyStr.

(** A [str] is a sequence of Unicode code points. *)
Definition pystr := list N.

(** A literal of the source text. *)
Definition lit (s : string) : pystr :=
  map N_of_ascii (list_ascii_of_string s).

Fixpoint eqb (s t : pystr) : bool :=
  match s, t with
  | [], [] => true
  | c :: s', d :: t' => N.eqb c d && eqb s' t'
  | _, _ => false
  end.

(** [x in l] for a list of strings. *)
Definition mem (x : pystr) (l : list pystr) : bool := existsb (eqb x) l.

(** [s.startswith(p)]. *)
Fixpoint startswith (p s : pystr) : bool :=
  match p, s with
  | [], _ => true
  | c :: p', d :: s' => N.eqb c d && startswith p' s'
  | _ :: _, [] => false
  end.

(** [p in s] for two strings: [p] occurs in [s] as a substring. *)
Fixpoint substring (p s : pystr) : bool :=
  startswith p s ||
  match s with
  | [] => false
  | _ :: s' => substring p s'
  end.

(** [str.isspace] on one code point: the characters [str.strip()] removes
    when it is called without argument. *)
Definition isspace (c : N) : bool :=
  (((9 <=? c) && (c <=? 13)) || ((28 <=? c) && (c <=? 32))
   || (c =? 133) || (c =? 160) || (c =? 5760)
   || ((8192 <=? c) && (c <=? 8202))
   || (c =? 8232) || (c =? 8233) || (c =? 8239) || (c =? 8287)
   || (c =? 12288))%N.

Fixpoint lstrip (s : pystr) : pystr :=
  match s with
  | c :: s' => if isspace c then lstrip s' else s
  | [] => []
  end.

Definition rstrip (s : pystr) : pystr := rev (lstrip (rev s)).

(** [s.strip()]. *)
Definition strip (s : pystr) : pystr := rstrip (lstrip s).

(** [l.remove(x)]: the first item equal to [x] is deleted.  Python raises
    [ValueError] when there is none; the script calls it only under the
    test [x in l]. *)
Fixpoint remove (x : pystr) (l : list pystr) : list pystr :=
  match l with
  | [] => []
  | y :: l' => if eqb x y then l' else y :: remove x l'
  end.

End PyStr.

Import PyStr.

(** ** Python objects

    What [json.loads] returns: [None], a [bool], a number, a [str], a
    [list] or a [dict] whose keys are strings.  A [dict] is the list of its
    items in insertion order.  The script never looks inside a number, so a
    float is kept as the text of its literal. *)

Inductive pyobj : Type :=
| PNone
| PBool (b : bool)
| PInt (z : Z)
| PFloat (literal : pystr)
| PStr (s : pystr)
| PList (l : list pyobj)
| PDict (items : list (pystr * pyobj)).

(** The exceptions the script can meet.  [SystemExit] is what [sys.exit]
    raises; [OSError] stands for every failure of [open] or of reading the
    file, [RequestException] for a failure of [requests.get] itself. *)
Inductive exn : Type :=
| KeyError
| TypeError
| AttributeError
| OSError
| RequestException
| JSONDecodeError
| SystemExit (code : Z).

Inductive res (A : Type) : Type :=
| Ok (a : A)
| Raise (e : exn).

Arguments Ok {A} a.
Arguments Raise {A} e.

Module Py.

Fixpoint dict_get (items : list (pystr * pyobj)) (k : pystr) : option pyobj :=
  match items with
  | [] => None
  | (k', v) :: items' => if PyStr.eqb k k' then Some v else dict_get items' k
  end.

(** [o.keys()]: only a [dict] has the attribute. *)
Definition keys (o : pyobj) : res (list pystr) :=
  match o with
  | PDict items => Ok (map fst items)
  | _ => Raise AttributeError
  end.

(** [o[k]] for a string [k]: a [dict] is looked up, a [list] and a [str]
    refuse a string index, the other values are not subscriptable. *)
Definition getitem (o : pyobj) (k : pystr) : res pyobj :=
  match o with
  | PDict items =>
      match dict_get items k with
      | Some v => Ok v
      | None => Raise KeyError
      end
  | _ => Raise TypeError
  end.

(** [o == s] for a string [s]. *)
Definition eq_str (o : pyobj) (s : pystr) : bool :=
  match o with
  | PStr t => PyStr.eqb t s
  | _ => false
  end.

(** [k in o] for a string [k]: a key of a [dict], an item of a [list], a
    substring of a [str]; the other values are not iterable. *)
Definition contains (o : pyobj) (k : pystr) : res bool :=
  match o with
  | PDict items => Ok (existsb (fun kv => PyStr.eqb k (fst kv)) items)
  | PList l => Ok (existsb (fun x => eq_str x k) l)
  | PStr s => Ok (substring k s)
  | _ => Raise TypeError
  end.

(** [o is None]. *)
Definition is_None (o : pyobj) : bool :=
  match o with
  | PNone => true
  | _ => false
  end.

(** Sequencing of expressions that may raise. *)
Definition bind {A B} (r : res A) (f : A -> res B) : res B :=
  match r with
  | Ok a => f a
  | Raise e => Raise e
  end.

End Py.

(** ** The outside world and the trace of a run *)

(** The module [logging]: the four levels the script uses and their
    numbers. *)
Inductive level : Type := DEBUG | INFO | WARNING | ERROR.

Definition levelno (lv : level) : Z :=
  match lv with
  | DEBUG => 10
  | INFO => 20
  | WARNING => 30
  | ERROR => 40
  end.

(** An argument of [str.format]: the script formats strings and, in its
    last message, the list [ignored_cves]. *)
Inductive fmt_arg : Type :=
| AStr (s : pystr)
| AList (l : list pystr).

(** A call to the outside: [open], [requests.get], [print] and the methods
    of the logger.  A message is kept as its template and the arguments of
    [format]; the time stamp the formatter adds is not part of the model. *)
Inductive event : Type :=
| Open (path : pystr)
| HttpGet (url : pystr)
| Print (template : string) (args : list fmt_arg)
| LogCall (lv : level) (template : string) (args : list fmt_arg).

(** The answer to [requests.get]: the status code and what [json.loads]
    makes of the body ([None] when the body is not JSON). *)
Record response : Type := {
  status_code : Z;
  content : option pyobj
}.

(** The file system and the network of one run: the lines a path yields
    when it is opened and iterated ([None] when that raises), and the
    response of a URL ([None] when the request raises). *)
Record world : Type := {
  open_file : pystr -> option (list pystr);
  requests_get : pystr -> option response
}.

(** The parsed command line: [--trivy-ignore] and [--distribution]. *)
Record args : Type := {
  trivy_ignore : pystr;
  distribution : pystr
}.

(** The variables the main block mutates, and the trace so far. *)
Record state : Type := {
  ignored_cves : list pystr;
  resolved : bool;
  trace : list event
}.

(** ** Statements: state and exceptions *)

Definition M (A : Type) : Type := state -> res A * state.

Definition ret {A} (a : A) : M A := fun s => (Ok a, s).

Definition bind {A B} (m : M A) (f : A -> M B) : M B :=
  fun s =>
    match m s with
    | (Ok a, s') => f a s'
    | (Raise e, s') => (Raise e, s')
    end.

Definition raise {A} (e : exn) : M A := fun s => (Raise e, s).

(** An expression evaluated inside a statement. *)
Definition eval {A} (r : res A) : M A := fun s => (r, s).

Definition emit (e : event) : M unit :=
  fun s => (Ok tt, {| ignored_cves := ignored_cves s;
                      resolved := resolved s;
                      trace := trace s ++ [e] |}).

Definition set_resolved (b : bool) : M unit :=
  fun s => (Ok tt, {| ignored_cves := ignored_cves s;
                      resolved := b;
                      trace := trace s |}).

Definition set_ignored_cves (l : list pystr) : M unit :=
  fun s => (Ok tt, {| ignored_cves := l;
                      resolved := resolved s;
                      trace := trace s |}).

Definition get_resolved : M bool := fun s => (Ok (resolved s), s).

Definition get_ignored_cves : M (list pystr) :=
  fun s => (Ok (ignored_cves s), s).

(** [try: body except KeyError: handler]. *)
Definition try_except_KeyError (body handler : M unit) : M unit :=
  fun s =>
    match body s with
    | (Raise KeyError, s') => handler s'
    | r => r
    end.

(** [for x in l: body]; an exception leaves the loop. *)
Fixpoint for_each {A} (l : list A) (body : A -> M unit) : M unit :=
  match l with
  | [] => ret tt
  | x :: l' => bind (body x) (fun _ => for_each l' body)
  end.

(** [sys.exit(code)]. *)
Definition sys_exit (code : Z) : M unit := raise (SystemExit code).

Declare Scope py_scope.
Delimit Scope py_scope with py.
Notation "x <- m ;; k" := (bind m (fun x => k))
  (at level 61, m at next level, right associativity) : py_scope.
Notation "m ;; k" := (bind m (fun _ => k))
  (at level 61, right associativity) : py_scope.
Open Scope py_scope.

(** ** The script *)

Definition DEBIAN_URL : pystr :=
  lit "https://security-tracker.debian.org/tracker/data/json".

(** The logger of the main block: [logger.setLevel(logging.INFO)] and one
    stream handler with [ch.setLevel(logging.DEBUG)]. *)
Definition logger_level : Z := levelno INFO.
Definition handler_level : Z := levelno DEBUG.

(** A call of the logger writes a record when its level passes the level
    of the logger and the level of the handler. *)
Definition emitted (e : event) : bool :=
  match e with
  | LogCall lv _ _ =>
      (logger_level <=? levelno lv)%Z && (handler_level <=? levelno lv)%Z
  | _ => false
  end.

(** What the handler writes during a run. *)
Definition log_output (tr : list event) : list event := filter emitted tr.

Definition logger_info (template : string) (a : list fmt_arg) : M unit :=
  emit (LogCall INFO template a).
Definition logger_warning (template : string) (a : list fmt_arg) : M unit :=
  emit (LogCall WARNING template a).
Definition logger_debug (template : string) (a : list fmt_arg) : M unit :=
  emit (LogCall DEBUG template a).
Definition logger_error (template : string) (a : list fmt_arg) : M unit :=
  emit (LogCall ERROR template a).

(** [retrieve_debian_data]: the value returned is [None] after a status
    other than 200, else what [json.loads] returns. *)
Definition retrieve_debian_data (w : world) : M pyobj :=
  emit (HttpGet DEBIAN_URL) ;;
  match requests_get w DEBIAN_URL with
  | None => raise RequestException
  | Some resp =>
      if negb (status_code resp =? 200)%Z then
        emit (Print "Error while retrieving the data from {}"
                    [AStr DEBIAN_URL]) ;;
        ret PNone
      else
        match content resp with
        | Some o => ret o
        | None => raise JSONDecodeError
        end
  end.

(** The body of the loop of [read_trivy_filter], on the list built so
    far. *)
Definition filter_line (filtered_cve_list : list pystr) (line : pystr)
  : list pystr :=
  if negb (startswith (lit "CVE") (strip line)) then filtered_cve_list
  else if mem (strip line) filtered_cve_list then filtered_cve_list
  else filtered_cve_list ++ [strip line].

Definition filter_lines (lines : list pystr) : list pystr :=
  fold_left filter_line lines [].

(** [read_trivy_filter]. *)
Definition read_trivy_filter (w : world) (file_path : pystr)
  : M (list pystr) :=
  emit (Open file_path) ;;
  match open_file w file_path with
  | None => raise OSError
  | Some lines => ret (filter_lines lines)
  end.

(** The [try] block of the main loop, lines 61 to 69. *)
Definition classify_try (a : args) (all_cves : pyobj) (package cve : pystr)
  : M unit :=
  releases <- eval (Py.bind (Py.bind (Py.getitem all_cves package)
                        (fun p => Py.getitem p cve))
                        (fun r => Py.getitem r (lit "releases"))) ;;
  absent <- eval (Py.bind (Py.contains releases (distribution a))
                          (fun b => Ok (negb b))) ;;
  if absent : bool then
    logger_info "{} is not in {}" [AStr (distribution a); AStr package]
  else
    status <- eval (Py.bind (Py.bind (Py.bind (Py.bind
                      (Py.getitem all_cves package)
                      (fun p => Py.getitem p cve))
                      (fun r => Py.getitem r (lit "releases")))
                      (fun rs => Py.getitem rs (distribution a)))
                      (fun e => Py.getitem e (lit "status"))) ;;
    (if Py.eq_str status (lit "resolved") then
       logger_warning "{} has been resolved" [AStr cve] ;;
       set_resolved true
     else
       logger_debug "{} has been found but it is not resolved" [AStr cve]) ;;
    l <- get_ignored_cves ;;
    set_ignored_cves (remove cve l).

(** The body of the inner loop, lines 59 to 71. *)
Definition classify (a : args) (all_cves : pyobj) (package cve : pystr)
  : M unit :=
  l <- get_ignored_cves ;;
  if mem cve l then
    try_except_KeyError
      (classify_try a all_cves package cve)
      (logger_warning "Status for {} has not been found" [AStr cve])
  else ret tt.

(** The two loops, lines 57 to 71. *)
Definition classify_all (a : args) (all_cves : pyobj) : M unit :=
  packages <- eval (Py.keys all_cves) ;;
  for_each packages (fun package =>
    cves <- eval (Py.bind (Py.getitem all_cves package) Py.keys) ;;
    for_each cves (classify a all_cves package)).

(** The verdict, lines 72 to 76. *)
Definition verdict : M unit :=
  r <- get_resolved ;;
  if r : bool then sys_exit 1
  else
    l <- get_ignored_cves ;;
    if negb (Nat.eqb (List.length l) 0) then
      logger_error "These CVE has not been found: {}" [AList l] ;;
      sys_exit 1
    else ret tt.

(** The main block from line 52 on, after the command line is parsed and
    the logger is set up. *)
Definition main (w : world) (a : args) : M unit :=
  set_resolved false ;;
  l <- read_trivy_filter w (trivy_ignore a) ;;
  set_ignored_cves l ;;
  all_cves <- retrieve_debian_data w ;;
  if Py.is_None all_cves then sys_exit 1
  else
    classify_all a all_cves ;;
    verdict.

Definition initial : state :=
  {| ignored_cves := []; resolved := false; trace := [] |}.

(** One run of the script. *)
Definition run (w : world) (a : args) : res unit * state :=
  main w a initial.

(** The exit status of the process: the code of [sys.exit], 1 after an
    exception nobody caught, 0 when the script reaches its end. *)
Definition exit_status (r : res unit) : Z :=
  match r with
  | Ok _ => 0
  | Raise (SystemExit code) => code
  | Raise _ => 1
  end.

(** ** The vocabulary of the specification *)

(** The lookups of the [try] block on one record: [Ok None] when the
    distribution is not among the releases of the record, [Ok (Some st)]
    when the release carries the status [st], [Raise KeyError] when
    [releases] or [status] is missing. *)
Definition status_of (dist : pystr) (record : pyobj) : res (option pyobj) :=
  Py.bind (Py.getitem record (lit "releases")) (fun releases =>
  Py.bind (Py.contains releases dist) (fun present =>
  if negb present then Ok None
  else
    Py.bind (Py.getitem releases dist) (fun entry =>
    Py.bind (Py.getitem entry (lit "status")) (fun st =>
    Ok (Some st))))).

(** The record the script reads for a package and an identifier. *)
Definition record_at (all_cves : pyobj) (package cve : pystr) : res pyobj :=
  Py.bind (Py.getitem all_cves package) (fun p => Py.getitem p cve).

(** What one turn of the inner loop does, given the outcome of the
    lookups. *)
Definition classify_with (a : args) (package cve : pystr)
  (found : res (option pyobj)) (s : state) : res unit * state :=
  if mem cve (ignored_cves s) then
    match found with
    | Ok None =>
        (Ok tt,
         {| ignored_cves := ignored_cves s;
            resolved := resolved s;
            trace := trace s ++
              [LogCall INFO "{} is not in {}"
                 [AStr (distribution a); AStr package]] |})
    | Ok (Some st) =>
        if Py.eq_str st (lit "resolved") then
          (Ok tt,
           {| ignored_cves := remove cve (ignored_cves s);
              resolved := true;
              trace := trace s ++
                [LogCall WARNING "{} has been resolved" [AStr cve]] |})
        else
          (Ok tt,
           {| ignored_cves := remove cve (ignored_cves s);
              resolved := resolved s;
              trace := trace s ++
                [LogCall DEBUG "{} has been found but it is not resolved"
                   [AStr cve]] |})
    | Raise KeyError =>
        (Ok tt,
         {| ignored_cves := ignored_cves s;
            resolved := resolved s;
            trace := trace s ++
              [LogCall WARNING "Status for {} has not been found"
                 [AStr cve]] |})
    | Raise e => (Raise e, s)
    end
  else (Ok tt, s).

(** The records of a dataset in the order the two loops visit them. *)
Definition occurrence : Type := pystr * pystr * pyobj.

Definition occurrences (all_cves : pyobj) : list occurrence :=
  match all_cves with
  | PDict packages =>
      flat_map (fun pv : pystr * pyobj =>
        match snd pv with
        | PDict cves =>
            map (fun cr : pystr * pyobj => (fst pv, fst cr, snd cr)) cves
        | _ => []
        end) packages
  | _ => []
  end.

(** The status that settles an identifier: the status of its first record,
    in the order of the loops, that carries one for the distribution. *)
Fixpoint decisive (dist cve : pystr) (occs : list occurrence)
  : option pyobj :=
  match occs with
  | [] => None
  | (_, c, record) :: occs' =>
      if PyStr.eqb cve c then
        match status_of dist record with
        | Ok (Some st) => Some st
        | _ => decisive dist cve occs'
        end
      else decisive dist cve occs'
  end.

Definition is_resolved (o : option pyobj) : bool :=
  match o with
  | Some st => Py.eq_str st (lit "resolved")
  | None => false
  end.

Definition is_unsettled (o : option pyobj) : bool :=
  match o with
  | Some _ => false
  | None => true
  end.

(** The shape of the tracker's export: package, identifier, record; a
    record may have [releases], a dictionary from release names to
    dictionaries that may have [status].  The keys of a dictionary are
    distinct. *)
Fixpoint distinct (l : list pystr) : bool :=
  match l with
  | [] => true
  | x :: l' => negb (mem x l') && distinct l'
  end.

Definition is_dict (o : pyobj) : bool :=
  match o with
  | PDict _ => true
  | _ => false
  end.

Definition record_shape (record : pyobj) : bool :=
  match record with
  | PDict fields =>
      match Py.dict_get fields (lit "releases") with
      | None => true
      | Some (PDict releases) => forallb is_dict (map snd releases)
      | Some _ => false
      end
  | _ => false
  end.

Definition package_shape (p : pyobj) : bool :=
  match p with
  | PDict cves => distinct (map fst cves) && forallb record_shape (map snd cves)
  | _ => false
  end.

Definition dataset_shape (all_cves : pyobj) : bool :=
  match all_cves with
  | PDict packages =>
      distinct (map fst packages) && forallb package_shape (map snd packages)
  | _ => false
  end.

(** The three calls of the logger that name an identifier, the note on a
    distribution, and the final report. *)
Definition resolved_call (cve : pystr) : event :=
  LogCall WARNING "{} has been resolved" [AStr cve].

Definition unresolved_call (cve : pystr) : event :=
  LogCall DEBUG "{} has been found but it is not resolved" [AStr cve].

Definition no_status_call (cve : pystr) : event :=
  LogCall WARNING "Status for {} has not been found" [AStr cve].

Definition not_in_call (dist package : pystr) : event :=
  LogCall INFO "{} is not in {}" [AStr dist; AStr package].

Definition not_found_call (l : list pystr) : event :=
  LogCall ERROR "These CVE has not been found: {}" [AList l].

Definition fetch_failed_print : event :=
  Print "Error while retrieving the data from {}" [AStr DEBIAN_URL].

(** The ignore-list reader as the specification words it: the trimmed
    lines that start with [CVE], each kept at its first occurrence. *)
Fixpoint first_occurrences (l : list pystr) : list pystr :=
  match l with
  | [] => []
  | x :: l' => x :: filter (fun y => negb (PyStr.eqb x y)) (first_occurrences l')
  end.

Definition ignore_entries (lines : list pystr) : list pystr :=
  first_occurrences (filter (startswith (lit "CVE")) (map strip lines)).

(** Builders for datasets and worlds. *)
Definition release_entry (status : pystr) : pyobj :=
  PDict [(lit "status", PStr status)].

Definition record_of (releases : list (pystr * pyobj)) : pyobj :=
  PDict [(lit "releases", PDict releases)].

Definition world_of (lines : list pystr) (code : Z) (body : option pyobj)
  : world :=
  {| open_file := fun _ => Some lines;
     requests_get := fun _ => Some {| status_code := code; content := body |} |}.

Definition args_of (dist : pystr) : args :=
  {| trivy_ignore := lit ".trivyignore"; distribution := dist |}.

(** ** The script in pieces

    The parts of the main block the properties are stated on. *)

(** The main block after the ignore list is read, lines 54 to 76. *)
Definition check (w : world) (a : args) : M unit :=
  all_cves <- retrieve_debian_data w ;;
  if Py.is_None all_cves then sys_exit 1
  else
    classify_all a all_cves ;;
    verdict.

Definition after_read (a : args) (lines : list pystr) : state :=
  {| ignored_cves := filter_lines lines;
     resolved := false;
     trace := [Open (trivy_ignore a)] |}.

(** One turn of the inner loop, on the record it visits. *)
Definition visit (a : args) (occ : occurrence) : M unit :=
  classify_with a (fst (fst occ)) (snd (fst occ))
    (status_of (distribution a) (snd occ)).

(** The state after the loops have visited the records [occs]. *)
Definition settle (a : args) (occs : list occurrence) (s : state) : state :=
  fold_left (fun s occ => snd (visit a occ s)) occs s.

(** The run reads [lines] from the ignore file and receives the dataset
    [all_cves] with status 200. *)
Definition fetched (w : world) (a : args) (lines : list pystr)
  (all_cves : pyobj) : Prop :=
  open_file w (trivy_ignore a) = Some lines
  /\ requests_get w DEBIAN_URL =
       Some {| status_code := 200; content := Some all_cves |}.

Definition after_fetch (a : args) (lines : list pystr) : state :=
  {| ignored_cves := filter_lines lines;
     resolved := false;
     trace := [Open (trivy_ignore a); HttpGet DEBIAN_URL] |}.

(** The state when the two loops are over. *)
Definition classified (a : args) (lines : list pystr) (all_cves : pyobj)
  : state :=
  settle a (occurrences all_cves) (after_fetch a lines).

(** ** Counting calls in a trace *)

Definition event_eq_dec (x y : event) : {x = y} + {x <> y}.
Proof.
  assert (Hs : forall l1 l2 : pystr, {l1 = l2} + {l1 <> l2})
    by (apply list_eq_dec, N.eq_dec).
  assert (Hl : forall l1 l2 : list pystr, {l1 = l2} + {l1 <> l2})
    by (apply list_eq_dec, Hs).
  assert (Ha : forall a1 a2 : fmt_arg, {a1 = a2} + {a1 <> a2})
    by decide equality.
  assert (Has : forall l1 l2 : list fmt_arg, {l1 = l2} + {l1 <> l2})
    by (apply list_eq_dec, Ha).
  assert (Hv : forall l1 l2 : level, {l1 = l2} + {l1 <> l2})
    by decide equality.
  decide equality; apply string_dec.
Defined.

(** How often an event occurs in a trace. *)
Definition occurs (e : event) (tr : list event) : nat :=
  count_occ event_eq_dec tr e.

(** How often the loop matched an identifier: the calls that report it
    resolved and the calls that report it found and not resolved. *)
Definition matches (cve : pystr) (tr : list event) : nat :=
  occurs (resolved_call cve) tr + occurs (unresolved_call cve) tr.

(** An event that reports no match. *)
Definition no_match (e : event) : Prop :=
  forall c, e <> resolved_call c /\ e <> unresolved_call c.

(** The invariant of the main block once the ignore list [entries] is
    read: an identifier still on the list was never matched, an identifier
    taken off the list was matched once. *)
Definition accounted (entries : list pystr) (s : state) : Prop :=
  NoDup (ignored_cves s)
  /\ forall c,
       (In c (ignored_cves s) -> In c entries /\ matches c (trace s) = 0)
       /\ (~ In c (ignored_cves s) -> In c entries -> matches c (trace s) = 1)
       /\ (~ In c entries -> matches c (trace s) = 0).

(** The flag [resolved] is set exactly when a resolved identifier was
    reported. *)
Definition flagged (s : state) : Prop :=
  resolved s = true <-> exists c, In (resolved_call c) (trace s).

Definition preserves {A} (P : state -> Prop) (m : M A) : Prop :=
  forall s, P s -> P (snd (m s)).

Definition sound (entries : list pystr) (s : state) : Prop :=
  accounted entries s /\ flagged s.

(** The three states of an ignore entry at the end of a run, read off the
    final state: taken off the list with the call that reports it found
    and not resolved, taken off the list with the call that reports it
    resolved, or still on the list with neither call. *)
Definition matched_unresolved (s : state) (cve : pystr) : Prop :=
  ~ In cve (ignored_cves s)
  /\ occurs (unresolved_call cve) (trace s) = 1
  /\ occurs (resolved_call cve) (trace s) = 0.

Definition matched_resolved (s : state) (cve : pystr) : Prop :=
  ~ In cve (ignored_cves s)
  /\ occurs (resolved_call cve) (trace s) = 1
  /\ occurs (unresolved_call cve) (trace s) = 0.

Definition never_matched (s : state) (cve : pystr) : Prop :=
  In cve (ignored_cves s)
  /\ occurs (resolved_call cve) (trace s) = 0
  /\ occurs (unresolved_call cve) (trace s) = 0.

(** ** Vocabulary of the further properties *)

(** The exceptions that end a run before the verdict. *)
Definition aborts (e : exn) : Prop :=
  e = SystemExit 1 \/ e = RequestException \/ e = JSONDecodeError
  \/ e = TypeError \/ e = AttributeError.

(** The trace of [s] is [pre] followed by events that satisfy [Q]. *)
Definition grown (Q : event -> Prop) (pre : list event) (s : state) : Prop :=
  exists rest, trace s = pre ++ rest /\ Forall Q rest.

(** The calls of the two loops: calls of the logger below [ERROR]. *)
Definition loop_call (e : event) : Prop :=
  match e with
  | LogCall lv _ _ => lv <> ERROR
  | _ => False
  end.

(** An event that is neither [open] nor a request. *)
Definition local_event (e : event) : Prop :=
  match e with
  | Open _ | HttpGet _ => False
  | _ => True
  end.

(** An event that is not a call of [logger.error]. *)
Definition below_error (e : event) : Prop :=
  match e with
  | LogCall ERROR _ _ => False
  | _ => True
  end.

(** The records of one identifier, in the order of the loops. *)
Definition records_of (cve : pystr) (occs : list occurrence)
  : list occurrence :=
  filter (fun occ => PyStr.eqb cve (snd (fst occ))) occs.

(** ** Sample inputs *)

Module Sample.

Definition bullseye : pystr := lit "bullseye".
Definition cve1 : pystr := lit "CVE-2023-0001".
Definition cve2 : pystr := lit "CVE-2023-0002".

Definition open_record : pyobj :=
  record_of [(bullseye, release_entry (lit "open"))].
Definition resolved_record : pyobj :=
  record_of [(bullseye, release_entry (lit "resolved"))].
(** A record whose releases do not name bullseye. *)
Definition other_release_record : pyobj :=
  record_of [(lit "bookworm", release_entry (lit "open"))].
(** A record whose bullseye entry has no status. *)
Definition no_status_record : pyobj :=
  record_of [(bullseye, PDict [(lit "urgency", PStr (lit "low"))])].

(** The lines of an ignore file: a comment, an entry, the same entry
    again, and a second entry. *)
Definition ignore_file : list pystr :=
  [lit "# accepted"; lit "CVE-2023-0001 "; lit " CVE-2023-0001";
   lit "CVE-2023-0002"].

Definition one_package (cve : pystr) (record : pyobj) : pyobj :=
  PDict [(lit "openssl", PDict [(cve, record)])].

Definition two_packages (cve : pystr) (first second : pyobj) : pyobj :=
  PDict [(lit "openssl", PDict [(cve, first)]);
         (lit "curl", PDict [(cve, second)])].

Definition run_on (lines : list pystr) (all_cves : pyobj)
  : res unit * state :=
  run (world_of lines 200 (Some all_cves)) (args_of bullseye).

End Sample.

(** * Properties *)

(** ** The model on small inputs *)

(** The reader on a file with a comment, an entry written twice with
    blanks around it, and a second entry. *)
Example ignore_file_entries :
  filter_lines Sample.ignore_file = [Sample.cve1; Sample.cve2].
Proof. reflexivity. Qed.

(** The logger drops the debug call of a match that is not resolved: the
    level of the logger is [INFO]. *)
Example debug_call_dropped (cve : pystr) :
  emitted (unresolved_call cve) = false
  /\ emitted (resolved_call cve) = true.
Proof. split; reflexivity. Qed.

(** A release entry that is not a dictionary ends the run on a
    [TypeError] nobody catches: the shape of the dataset matters. *)
Example ill_shaped_entry_crashes :
  Sample.run_on [Sample.cve1]
    (Sample.one_package Sample.cve1
       (record_of [(Sample.bullseye, PStr (lit "open"))])) =
  (Raise TypeError,
   {| ignored_cves := [Sample.cve1];
      resolved := false;
      trace := [Open (lit ".trivyignore"); HttpGet DEBIAN_URL] |}).
Proof. reflexivity. Qed.

(** A body that is the JSON value [null] makes [all_cves] be [None]: the
    run leaves with status 1 and prints nothing. *)
Example null_body_exits :
  run (world_of [Sample.cve1] 200 (Some PNone)) (args_of Sample.bullseye) =
  (Raise (SystemExit 1),
   {| ignored_cves := [Sample.cve1];
      resolved := false;
      trace := [Open (lit ".trivyignore"); HttpGet DEBIAN_URL] |}).
Proof. reflexivity. Qed.

(** ** Strings and lists of strings *)

Module PyStrFacts.

Lemma eqb_spec (s t : pystr) : reflect (s = t) (eqb s t).
Proof.
  revert t; induction s as [|c s IH]; intros [|d t]; simpl;
    try (constructor; congruence).
  destruct (N.eqb_spec c d) as [->|Hn]; simpl.
  - destruct (IH t) as [->|Hn]; constructor; congruence.
  - constructor; congruence.
Qed.

Lemma eqb_refl (s : pystr) : eqb s s = true.
Proof. destruct (eqb_spec s s); congruence. Qed.

Lemma eqb_eq (s t : pystr) : eqb s t = true <-> s = t.
Proof. destruct (eqb_spec s t); split; congruence. Qed.

Lemma eqb_neq (s t : pystr) : eqb s t = false <-> s <> t.
Proof. destruct (eqb_spec s t); split; congruence. Qed.

Lemma eqb_sym (s t : pystr) : eqb s t = eqb t s.
Proof.
  destruct (eqb_spec s t) as [->|Hn].
  - symmetry; apply eqb_refl.
  - symmetry; apply eqb_neq; congruence.
Qed.

Lemma mem_In (x : pystr) (l : list pystr) : mem x l = true <-> In x l.
Proof.
  unfold mem; rewrite existsb_exists; split.
  - intros [y [Hy He]]. apply eqb_eq in He. now subst.
  - intros H; exists x; split; [assumption | apply eqb_refl].
Qed.

Lemma mem_not_In (x : pystr) (l : list pystr) : mem x l = false <-> ~ In x l.
Proof.
  rewrite <- mem_In. destruct (mem x l); split; congruence.
Qed.

Lemma In_remove (x y : pystr) (l : list pystr) :
  In y (remove x l) -> In y l.
Proof.
  induction l as [|z l IH]; simpl; [tauto|].
  destruct (eqb x z); simpl; tauto.
Qed.

Lemma NoDup_remove (x : pystr) (l : list pystr) :
  NoDup l -> NoDup (remove x l).
Proof.
  induction 1 as [|z l Hz Hl IH]; simpl; [constructor|].
  destruct (eqb x z); [assumption|].
  constructor; [|assumption].
  intros H; apply Hz; eapply In_remove; eassumption.
Qed.

Lemma remove_NoDup_In (x y : pystr) (l : list pystr) :
  NoDup l -> (In y (remove x l) <-> In y l /\ y <> x).
Proof.
  induction 1 as [|z l Hz Hl IH]; simpl; [tauto|].
  destruct (eqb_spec x z) as [->|Hn]; simpl.
  - split.
    + intros H; split; [tauto|]. intros ->; contradiction.
    + intros [[H|H] Hne]; [congruence | assumption].
  - rewrite IH. split.
    + intros [H|[H1 H2]]; [subst; split; [tauto|congruence] | tauto].
    + intros [[H|H] Hne]; tauto.
Qed.

Lemma remove_filter (x : pystr) (l : list pystr) :
  NoDup l -> remove x l = filter (fun y => negb (eqb x y)) l.
Proof.
  induction 1 as [|z l Hz Hl IH]; simpl; [reflexivity|].
  destruct (eqb_spec x z) as [->|Hn]; simpl.
  - symmetry. apply forallb_filter_id. apply forallb_forall.
    intros y Hy. apply negb_true_iff, eqb_neq. intros ->; contradiction.
  - now rewrite IH.
Qed.

Lemma mem_app (x : pystr) (l1 l2 : list pystr) :
  mem x (l1 ++ l2) = mem x l1 || mem x l2.
Proof. unfold mem. apply existsb_app. Qed.

Lemma filter_filter {A} (f g : A -> bool) (l : list A) :
  filter f (filter g l) = filter (fun x => g x && f x) l.
Proof.
  induction l as [|x l IH]; simpl; [reflexivity|].
  destruct (g x); simpl; [destruct (f x)|]; now rewrite IH.
Qed.

Lemma distinct_NoDup (l : list pystr) : distinct l = true -> NoDup l.
Proof.
  induction l as [|x l IH]; simpl; [constructor|].
  rewrite andb_true_iff, negb_true_iff, mem_not_In.
  intros [Hx Hl]. constructor; auto.
Qed.

End PyStrFacts.

Import PyStrFacts.

(** ** The ignore-list reader *)

Section Reader.

Let cve_line := startswith (lit "CVE").

Lemma first_occurrences_filter (f : pystr -> bool) (l : list pystr) :
  first_occurrences (filter f l) = filter f (first_occurrences l).
Proof.
  induction l as [|y l IH]; simpl; [reflexivity|].
  destruct (f y) eqn:Hy; simpl.
  - rewrite IH, !filter_filter. f_equal.
    apply filter_ext. intros z. apply andb_comm.
  - rewrite IH, filter_filter. apply filter_ext_in. intros z _.
    destruct (PyStrFacts.eqb_spec y z) as [->|Hn]; simpl; [|reflexivity].
    now rewrite Hy.
Qed.

Lemma first_occurrences_In (x : pystr) (l : list pystr) :
  In x (first_occurrences l) <-> In x l.
Proof.
  induction l as [|y l IH]; simpl; [tauto|].
  rewrite filter_In, IH, negb_true_iff, eqb_neq.
  destruct (PyStrFacts.eqb_spec y x) as [->|Hn]; tauto.
Qed.

Lemma first_occurrences_NoDup (l : list pystr) : NoDup (first_occurrences l).
Proof.
  induction l as [|y l IH]; simpl; constructor.
  - rewrite filter_In, negb_true_iff, eqb_neq. tauto.
  - now apply NoDup_filter.
Qed.

Lemma fold_filter_line (lines acc : list pystr) :
  fold_left filter_line lines acc =
  acc ++ first_occurrences
           (filter (fun y => negb (mem y acc))
                   (filter cve_line (map strip lines))).
Proof.
  revert acc; induction lines as [|line lines IH]; intros acc; simpl.
  - now rewrite app_nil_r.
  - unfold filter_line at 2. fold cve_line.
    destruct (cve_line (strip line)) eqn:Hc; simpl; [|apply IH].
    destruct (mem (strip line) acc) eqn:Hm; simpl; [apply IH|].
    rewrite IH, <- app_assoc. simpl. do 2 f_equal.
    generalize (filter cve_line (map strip lines)) as rest. intros rest.
    rewrite <- first_occurrences_filter, filter_filter.
    f_equal. apply filter_ext. intros z.
    rewrite mem_app. simpl. rewrite orb_false_r, negb_orb.
    now rewrite (eqb_sym z).
Qed.

Lemma filter_lines_spec (lines : list pystr) :
  filter_lines lines = ignore_entries lines.
Proof.
  unfold filter_lines, ignore_entries. rewrite fold_filter_line. simpl.
  f_equal. fold cve_line. apply forallb_filter_id, forallb_forall.
  reflexivity.
Qed.

Lemma filter_lines_NoDup (lines : list pystr) : NoDup (filter_lines lines).
Proof. rewrite filter_lines_spec. apply first_occurrences_NoDup. Qed.

Lemma filter_lines_In (lines : list pystr) (x : pystr) :
  In x (filter_lines lines) <->
  exists line, In line lines /\ x = strip line
               /\ startswith (lit "CVE") x = true.
Proof.
  rewrite filter_lines_spec. unfold ignore_entries.
  rewrite first_occurrences_In, filter_In, in_map_iff. split.
  - intros [[line [<- Hl]] Hc]. exists line; auto.
  - intros [line [Hl [-> Hc]]]. split; [exists line|]; auto.
Qed.

End Reader.

(** C5.  The reader returns the trimmed lines that start with [CVE], each
    once and at the place of its first occurrence; a line that does not
    start with [CVE] once trimmed is not returned.  [read_trivy_filter]
    returns the list its loop builds, and that list is the one the
    specification describes. *)
Theorem read_trivy_filter_entries (w : world) (path : pystr) (s : state) :
  fst (read_trivy_filter w path s) =
    match open_file w path with
    | Some lines => Ok (filter_lines lines)
    | None => Raise OSError
    end
  /\ forall lines,
       filter_lines lines = ignore_entries lines
       /\ NoDup (filter_lines lines)
       /\ (forall x, In x (filter_lines lines) <->
             exists line, In line lines /\ x = strip line
                          /\ startswith (lit "CVE") x = true)
       /\ forallb (startswith (lit "CVE")) (filter_lines lines) = true.
Proof.
  split.
  - unfold read_trivy_filter, bind, emit.
    now destruct (open_file w path).
  - intros lines. repeat split.
    + apply filter_lines_spec.
    + apply filter_lines_NoDup.
    + apply filter_lines_In.
    + apply filter_lines_In.
    + apply forallb_forall. intros x Hx. apply filter_lines_In in Hx.
      now destruct Hx as [line [_ [_ Hs]]].
Qed.

(** ** One turn of the inner loop *)

(** The body of the inner loop depends on the dataset through the lookups
    of [status_of] on the record at hand. *)
Lemma classify_eq (a : args) (all_cves : pyobj) (package cve : pystr)
  (s : state) :
  classify a all_cves package cve s =
  classify_with a package cve
    (Py.bind (record_at all_cves package cve) (status_of (distribution a))) s.
Proof.
  unfold classify, classify_with, bind at 1, get_ignored_cves.
  destruct (mem cve (ignored_cves s)); [|reflexivity].
  unfold try_except_KeyError, classify_try, record_at, status_of, bind, eval.
  destruct (Py.getitem all_cves package) as [pv|e]; simpl;
    [|destruct e; reflexivity].
  destruct (Py.getitem pv cve) as [r|e]; simpl; [|destruct e; reflexivity].
  destruct (Py.getitem r (lit "releases")) as [rel|e]; simpl;
    [|destruct e; reflexivity].
  destruct (Py.contains rel (distribution a)) as [[|]|e]; simpl;
    [| reflexivity | destruct e; reflexivity].
  destruct (Py.getitem rel (distribution a)) as [en|e]; simpl;
    [|destruct e; reflexivity].
  destruct (Py.getitem en (lit "status")) as [st|e]; simpl;
    [|destruct e; reflexivity].
  destruct (Py.eq_str st (lit "resolved")); reflexivity.
Qed.

(** ** Invariants of every run *)

Section Preservation.

Variable P : state -> Prop.

Lemma preserves_ret {A} (x : A) : preserves P (ret x).
Proof. intros s H; exact H. Qed.

Lemma preserves_raise {A} (e : exn) : preserves P (@raise A e).
Proof. intros s H; exact H. Qed.

Lemma preserves_eval {A} (r : res A) : preserves P (eval r).
Proof. intros s H; exact H. Qed.

Lemma preserves_bind {A B} (m : M A) (f : A -> M B) :
  preserves P m -> (forall x, preserves P (f x)) -> preserves P (bind m f).
Proof.
  intros Hm Hf s Hs. unfold bind. specialize (Hm s Hs).
  destruct (m s) as [[x|e] s']; simpl in *; [now apply Hf | assumption].
Qed.

Lemma preserves_for_each {A} (l : list A) (body : A -> M unit) :
  (forall x, preserves P (body x)) -> preserves P (for_each l body).
Proof.
  intros Hb. induction l as [|x l IH]; simpl.
  - apply preserves_ret.
  - apply preserves_bind; [apply Hb | intros _; exact IH].
Qed.

End Preservation.

Lemma occurs_snoc (e x : event) (tr : list event) :
  occurs x (tr ++ [e]) = occurs x tr + (if event_eq_dec e x then 1 else 0).
Proof. unfold occurs. rewrite count_occ_app. reflexivity. Qed.

Lemma occurs_snoc_same (e : event) (tr : list event) :
  occurs e (tr ++ [e]) = S (occurs e tr).
Proof.
  rewrite occurs_snoc. destruct (event_eq_dec e e); [lia | congruence].
Qed.

Lemma occurs_snoc_other (e x : event) (tr : list event) :
  e <> x -> occurs x (tr ++ [e]) = occurs x tr.
Proof.
  intros H. rewrite occurs_snoc. destruct (event_eq_dec e x); [congruence | lia].
Qed.

Lemma occurs_In (e : event) (tr : list event) : In e tr <-> occurs e tr > 0.
Proof. apply count_occ_In. Qed.

Lemma matches_snoc_other (e : event) (c : pystr) (tr : list event) :
  no_match e -> matches c (tr ++ [e]) = matches c tr.
Proof.
  intros H. destruct (H c) as [H1 H2]. unfold matches.
  now rewrite !occurs_snoc_other.
Qed.

Lemma matches_snoc_resolved (c c' : pystr) (tr : list event) :
  matches c (tr ++ [resolved_call c']) =
  matches c tr + (if PyStr.eqb c c' then 1 else 0).
Proof.
  unfold matches. destruct (PyStrFacts.eqb_spec c c') as [->|Hn].
  - rewrite occurs_snoc_same, occurs_snoc_other; [lia | discriminate].
  - rewrite !occurs_snoc_other; [lia | discriminate |].
    unfold resolved_call; congruence.
Qed.

Lemma matches_snoc_unresolved (c c' : pystr) (tr : list event) :
  matches c (tr ++ [unresolved_call c']) =
  matches c tr + (if PyStr.eqb c c' then 1 else 0).
Proof.
  unfold matches. destruct (PyStrFacts.eqb_spec c c') as [->|Hn].
  - rewrite occurs_snoc_same, occurs_snoc_other; [lia | discriminate].
  - rewrite !occurs_snoc_other; [lia | | discriminate].
    unfold unresolved_call; congruence.
Qed.

Lemma no_match_not_in (d p : pystr) : no_match (not_in_call d p).
Proof. intros c; split; discriminate. Qed.

Lemma no_match_no_status (c' : pystr) : no_match (no_status_call c').
Proof. intros c; split; discriminate. Qed.

Lemma no_match_not_found (l : list pystr) : no_match (not_found_call l).
Proof. intros c; split; discriminate. Qed.

Lemma no_match_HttpGet (u : pystr) : no_match (HttpGet u).
Proof. intros c; split; discriminate. Qed.

Lemma no_match_Print (t : string) (l : list fmt_arg) : no_match (Print t l).
Proof. intros c; split; discriminate. Qed.

Lemma sound_emit (entries : list pystr) (e : event) :
  no_match e -> preserves (sound entries) (emit e).
Proof.
  intros He s [[Hnd Hacc] Hfl]. unfold emit; simpl. split; [split|]; simpl.
  - assumption.
  - intros c. rewrite matches_snoc_other by assumption. apply Hacc.
  - unfold flagged in *; simpl. rewrite Hfl. split; intros [c Hc]; exists c.
    + apply in_or_app; now left.
    + apply in_app_or in Hc. destruct Hc as [Hc|[Hc|[]]]; [assumption|].
      destruct (He c) as [Hne _]. congruence.
Qed.

Lemma sound_matched (entries : list pystr) (s : state) (cve : pystr)
  (e : event) (b : bool) :
  (e = resolved_call cve /\ b = true
   \/ e = unresolved_call cve /\ b = resolved s) ->
  In cve (ignored_cves s) ->
  sound entries s ->
  sound entries {| ignored_cves := remove cve (ignored_cves s);
                   resolved := b;
                   trace := trace s ++ [e] |}.
Proof.
  intros He Hin [[Hnd Hacc] Hfl].
  assert (Hm : forall c, matches c (trace s ++ [e]) =
                         matches c (trace s) + (if PyStr.eqb c cve then 1 else 0)).
  { intros c. destruct He as [[-> _]|[-> _]];
      [apply matches_snoc_resolved | apply matches_snoc_unresolved]. }
  split; [split|]; simpl.
  - now apply NoDup_remove.
  - intros c. rewrite Hm, (remove_NoDup_In cve c Hnd).
    destruct (Hacc c) as [H1 [H2 H3]].
    destruct (PyStrFacts.eqb_spec c cve) as [->|Hn].
    + destruct (H1 Hin) as [HL H0]. repeat split; try tauto; intros; lia.
    + repeat split.
      * apply H1; tauto.
      * destruct (H1 (proj1 H)); lia.
      * intros Hc HL. rewrite H2; [lia | tauto | assumption].
      * intros HL. rewrite H3; [lia | assumption].
  - unfold flagged in *; simpl. destruct He as [[-> ->]|[-> ->]].
    + split; [|reflexivity]. intros _. exists cve.
      apply in_or_app; right; now left.
    + rewrite Hfl. split; intros [c Hc]; exists c.
      * apply in_or_app; now left.
      * apply in_app_or in Hc. destruct Hc as [Hc|[Hc|[]]];
          [assumption | discriminate].
Qed.

Lemma classify_with_sound (entries : list pystr) (a : args)
  (package cve : pystr) (found : res (option pyobj)) (s : state) :
  sound entries s -> sound entries (snd (classify_with a package cve found s)).
Proof.
  intros Hs. unfold classify_with.
  destruct (mem cve (ignored_cves s)) eqn:Hm; [|exact Hs].
  apply mem_In in Hm.
  destruct found as [[st|]|e].
  - destruct (Py.eq_str st (lit "resolved")); simpl;
      apply sound_matched; auto.
  - apply (sound_emit (no_match_not_in (distribution a) package) Hs).
  - destruct e; try exact Hs.
    apply (sound_emit (no_match_no_status cve) Hs).
Qed.

Lemma classify_sound (entries : list pystr) (a : args) (all_cves : pyobj)
  (package cve : pystr) :
  preserves (sound entries) (classify a all_cves package cve).
Proof.
  intros s Hs. rewrite classify_eq. now apply classify_with_sound.
Qed.

Lemma classify_all_sound (entries : list pystr) (a : args)
  (all_cves : pyobj) :
  preserves (sound entries) (classify_all a all_cves).
Proof.
  unfold classify_all. apply preserves_bind; [apply preserves_eval|].
  intros packages. apply preserves_for_each. intros package.
  apply preserves_bind; [apply preserves_eval|].
  intros cves. apply preserves_for_each. intros cve.
  apply classify_sound.
Qed.

Lemma verdict_sound (entries : list pystr) :
  preserves (sound entries) verdict.
Proof.
  unfold verdict. apply preserves_bind; [intros s H; exact H|].
  intros [|]; [apply preserves_raise|].
  apply preserves_bind; [intros s H; exact H|].
  intros l. destruct (negb _); [|apply preserves_ret].
  apply preserves_bind; [|intros _; apply preserves_raise].
  apply sound_emit, no_match_not_found.
Qed.

Lemma retrieve_sound (entries : list pystr) (w : world) :
  preserves (sound entries) (retrieve_debian_data w).
Proof.
  unfold retrieve_debian_data.
  apply preserves_bind; [apply sound_emit, no_match_HttpGet|].
  intros _. destruct (requests_get w DEBIAN_URL) as [resp|];
    [|apply preserves_raise].
  destruct (negb _).
  - apply preserves_bind; [apply sound_emit, no_match_Print|].
    intros _; apply preserves_ret.
  - destruct (content resp); [apply preserves_ret | apply preserves_raise].
Qed.

Lemma run_eq (w : world) (a : args) :
  run w a =
  match open_file w (trivy_ignore a) with
  | Some lines => check w a (after_read a lines)
  | None =>
      (Raise OSError,
       {| ignored_cves := []; resolved := false;
          trace := [Open (trivy_ignore a)] |})
  end.
Proof.
  unfold run, main, read_trivy_filter, bind, set_resolved, emit,
    set_ignored_cves, initial; simpl.
  destruct (open_file w (trivy_ignore a)); reflexivity.
Qed.

Lemma check_sound (entries : list pystr) (w : world) (a : args) :
  preserves (sound entries) (check w a).
Proof.
  unfold check. apply preserves_bind; [apply retrieve_sound|].
  intros o. destruct (Py.is_None o); [apply preserves_raise|].
  apply preserves_bind; [apply classify_all_sound|].
  intros _; apply verdict_sound.
Qed.

Lemma after_read_sound (a : args) (lines : list pystr) :
  sound (filter_lines lines) (after_read a lines).
Proof.
  split; [split|]; simpl.
  - apply filter_lines_NoDup.
  - intros c. repeat split; try tauto.
  - unfold flagged; simpl. split; [discriminate|].
    intros [c [H|[]]]; discriminate.
Qed.

Lemma run_sound (w : world) (a : args) (lines : list pystr) :
  open_file w (trivy_ignore a) = Some lines ->
  sound (filter_lines lines) (snd (run w a)).
Proof.
  intros H. rewrite run_eq, H. apply check_sound, after_read_sound.
Qed.

(** ** The loops on a dataset of the expected shape *)

Lemma dict_get_In (items : list (pystr * pyobj)) (k : pystr) (v : pyobj) :
  Py.dict_get items k = Some v -> In (k, v) items.
Proof.
  induction items as [|[k' v'] items IH]; simpl; [discriminate|].
  destruct (PyStrFacts.eqb_spec k k') as [->|Hn].
  - intros [= ->]. now left.
  - intros H. right. now apply IH.
Qed.

Lemma dict_get_distinct (items : list (pystr * pyobj)) (k : pystr)
  (v : pyobj) :
  distinct (map fst items) = true -> In (k, v) items ->
  Py.dict_get items k = Some v.
Proof.
  induction items as [|[k' v'] items IH]; simpl; [tauto|].
  rewrite andb_true_iff, negb_true_iff, mem_not_In.
  intros [Hk Hd] [[= -> ->]|Hin].
  - now rewrite eqb_refl.
  - destruct (PyStrFacts.eqb_spec k k') as [->|Hn]; [|now apply IH].
    exfalso. apply Hk. apply in_map_iff. now exists (k', v).
Qed.

Lemma for_each_app {A} (l1 l2 : list A) (body : A -> M unit) (s : state) :
  for_each (l1 ++ l2) body s =
  bind (for_each l1 body) (fun _ => for_each l2 body) s.
Proof.
  revert s; induction l1 as [|x l1 IH]; intros s; simpl.
  - reflexivity.
  - unfold bind. destruct (body x s) as [[[]|e] s']; [|reflexivity].
    now rewrite IH.
Qed.

Lemma bind_ext {A B} (m m' : M A) (f f' : A -> M B) (s : state) :
  m s = m' s -> (forall x s', f x s' = f' x s') -> bind m f s = bind m' f' s.
Proof.
  intros Hm Hf. unfold bind. rewrite Hm.
  destruct (m' s) as [[x|e] s']; [apply Hf | reflexivity].
Qed.

Lemma status_of_shape (dist : pystr) (record : pyobj) :
  record_shape record = true ->
  status_of dist record = Ok None
  \/ (exists st, status_of dist record = Ok (Some st))
  \/ status_of dist record = Raise KeyError.
Proof.
  destruct record as [| | | | | |fields]; try discriminate. simpl.
  unfold status_of; simpl.
  destruct (Py.dict_get fields (lit "releases")) as [releases|] eqn:Hr;
    [|auto].
  destruct releases as [| | | | | |rels]; try discriminate. simpl.
  intros Hall. destruct (existsb _ rels); simpl; [|auto].
  destruct (Py.dict_get rels dist) as [entry|] eqn:He; simpl; [|auto].
  apply dict_get_In in He. rewrite forallb_forall in Hall.
  assert (Hd : is_dict entry = true).
  { apply Hall. apply in_map_iff. now exists (dist, entry). }
  destruct entry as [| | | | | |e]; try discriminate. simpl.
  destruct (Py.dict_get e (lit "status")); simpl; eauto.
Qed.

Lemma visit_ok (a : args) (occ : occurrence) (s : state) :
  record_shape (snd occ) = true -> fst (visit a occ s) = Ok tt.
Proof.
  intros H. unfold visit, classify_with.
  destruct (mem _ _); [|reflexivity].
  destruct (status_of_shape (distribution a) _ H) as [->|[[st ->]| ->]];
    try reflexivity.
  now destruct (Py.eq_str st _).
Qed.

Lemma for_each_visit (a : args) (occs : list occurrence) (s : state) :
  Forall (fun occ => record_shape (snd occ) = true) occs ->
  for_each occs (visit a) s = (Ok tt, settle a occs s).
Proof.
  intros H; revert s; induction H as [|occ occs Hocc _ IH]; intros s; simpl.
  - reflexivity.
  - unfold bind. pose proof (visit_ok a occ s Hocc) as Hv.
    destruct (visit a occ s) as [r s']; simpl in *. subst r. apply IH.
Qed.

Section Flatten.

Variable a : args.
Variable packages : list (pystr * pyobj).
Hypothesis Hshape : dataset_shape (PDict packages) = true.

Let all_cves := PDict packages.

Lemma package_lookup (package : pystr) (pv : pyobj) :
  In (package, pv) packages ->
  Py.getitem all_cves package = Ok pv /\ package_shape pv = true.
Proof.
  intros Hin. simpl in Hshape. apply andb_true_iff in Hshape.
  destruct Hshape as [Hd Hall]. split.
  - simpl. now rewrite (dict_get_distinct _ _ _ Hd Hin).
  - rewrite forallb_forall in Hall. apply Hall.
    apply in_map_iff. now exists (package, pv).
Qed.

Lemma inner_loop (package : pystr) (cves : list (pystr * pyobj))
  (s : state) :
  In (package, PDict cves) packages ->
  forall l, incl l cves ->
  for_each (map fst l) (classify a all_cves package) s =
  for_each (map (fun cr : pystr * pyobj => (package, fst cr, snd cr)) l)
    (visit a) s.
Proof.
  intros Hin l. revert s.
  destruct (package_lookup _ _ Hin) as [Hget Hps]. simpl in Hps.
  apply andb_true_iff in Hps. destruct Hps as [Hd _].
  induction l as [|[cve r] l IH]; intros s Hl; simpl; [reflexivity|].
  apply bind_ext.
  - rewrite classify_eq. unfold visit, record_at; simpl fst; simpl snd.
    rewrite Hget. cbn [Py.bind Py.getitem].
    rewrite (dict_get_distinct cves cve r Hd); [reflexivity|].
    apply Hl; now left.
  - intros _ s'. apply IH. intros x Hx. apply Hl. now right.
Qed.

Lemma outer_loop (s : state) :
  forall l, incl l packages ->
  for_each (map fst l) (fun package =>
    cves <- eval (Py.bind (Py.getitem all_cves package) Py.keys) ;;
    for_each cves (classify a all_cves package)) s =
  for_each (occurrences (PDict l)) (visit a) s.
Proof.
  intros l; revert s.
  induction l as [|[package pv] l IH]; intros s Hl; simpl; [reflexivity|].
  rewrite for_each_app. apply bind_ext.
  - assert (Hin : In (package, pv) packages) by (apply Hl; now left).
    destruct (package_lookup _ _ Hin) as [Hget Hps].
    simpl in Hget. rewrite Hget.
    destruct pv as [| | | | | |cves]; try discriminate.
    simpl. etransitivity;
      [|apply (@inner_loop package cves s Hin cves (incl_refl _))].
    reflexivity.
  - intros _ s'. apply IH. intros x Hx. apply Hl. now right.
Qed.

Lemma occurrences_shape :
  Forall (fun occ : occurrence => record_shape (snd occ) = true)
    (occurrences all_cves).
Proof.
  apply Forall_forall. intros [[p c] r] Hin. simpl in *.
  apply in_flat_map in Hin. destruct Hin as [[p' pv] [Hp Hin]].
  apply andb_true_iff in Hshape. destruct Hshape as [_ Hall].
  rewrite forallb_forall in Hall.
  assert (Hps : package_shape pv = true).
  { apply Hall. apply in_map_iff. now exists (p', pv). }
  simpl in Hin. destruct pv as [| | | | | |cves]; try contradiction.
  apply in_map_iff in Hin. destruct Hin as [[c' r'] [[= <- <- <-] Hc]].
  simpl in Hps. apply andb_true_iff in Hps. destruct Hps as [_ Hrs].
  rewrite forallb_forall in Hrs. apply Hrs.
  apply in_map_iff. now exists (c', r').
Qed.

Lemma classify_all_settle (s : state) :
  classify_all a all_cves s = (Ok tt, settle a (occurrences all_cves) s).
Proof.
  transitivity (for_each (occurrences all_cves) (visit a) s).
  - exact (outer_loop s (incl_refl packages)).
  - apply for_each_visit, occurrences_shape.
Qed.

End Flatten.

(** ** What the loops leave behind *)

Section Settle.

Variable a : args.

Ltac visit_cases c r s :=
  unfold visit, classify_with; simpl fst; simpl snd;
  let st := fresh "st" in
  let e := fresh "e" in
  destruct (mem c (ignored_cves s)) eqn:Hmem;
  [ destruct (status_of (distribution a) r) as [[st|]|e] eqn:Hst;
    [ destruct (Py.eq_str st (lit "resolved")) eqn:Hres | | destruct e ]
  | ]; simpl.

Lemma existsb_filter {A} (f g : A -> bool) (l : list A) :
  existsb g (filter f l) = existsb (fun x => f x && g x) l.
Proof.
  induction l as [|x l IH]; simpl; [reflexivity|].
  destruct (f x); simpl; now rewrite IH.
Qed.

Lemma existsb_ext_in {A} (f g : A -> bool) (l : list A) :
  (forall x, In x l -> f x = g x) -> existsb f l = existsb g l.
Proof.
  induction l as [|x l IH]; simpl; [reflexivity|].
  intros H. rewrite (H x), IH; auto.
Qed.

Lemma visit_NoDup (occ : occurrence) (s : state) :
  NoDup (ignored_cves s) -> NoDup (ignored_cves (snd (visit a occ s))).
Proof.
  destruct occ as [[p c] r]. intros H.
  visit_cases c r s; auto using NoDup_remove.
Qed.

Lemma visit_trace (occ : occurrence) (s : state) (e : event) :
  In e (trace s) -> In e (trace (snd (visit a occ s))).
Proof.
  destruct occ as [[p c] r]. intros H.
  visit_cases c r s; auto using in_or_app.
Qed.

Lemma settle_trace (occs : list occurrence) (s : state) (e : event) :
  In e (trace s) -> In e (trace (settle a occs s)).
Proof.
  revert s; induction occs as [|occ occs IH]; intros s H; simpl;
    [assumption|].
  apply IH, visit_trace, H.
Qed.

(** A record that does not settle [c] leaves it on the list. *)
Lemma visit_keeps (p c0 : pystr) (r : pyobj) (s : state) (c : pystr) :
  NoDup (ignored_cves s) -> In c (ignored_cves s) ->
  decisive (distribution a) c [(p, c0, r)] = None ->
  In c (ignored_cves (snd (visit a (p, c0, r) s))).
Proof.
  intros Hnd Hin Hdec. simpl in Hdec.
  visit_cases c0 r s; auto;
    apply remove_NoDup_In; auto; split; auto; intros ->;
    now rewrite eqb_refl in Hdec.
Qed.

Lemma decisive_cons (c : pystr) (occ : occurrence) (occs : list occurrence) :
  decisive (distribution a) c (occ :: occs) =
  match decisive (distribution a) c [occ] with
  | Some st => Some st
  | None => decisive (distribution a) c occs
  end.
Proof.
  destruct occ as [[p c0] r]. simpl.
  destruct (PyStr.eqb c c0); [|reflexivity].
  now destruct (status_of (distribution a) r) as [[st|]|e].
Qed.

(** The identifiers left on the list are those no record settled. *)
Lemma settle_ignored (occs : list occurrence) (s : state) :
  NoDup (ignored_cves s) ->
  ignored_cves (settle a occs s) =
  filter (fun c => is_unsettled (decisive (distribution a) c occs)) (ignored_cves s).
Proof.
  revert s; induction occs as [|[[p c0] r] occs IH]; intros s Hnd.
  - simpl. symmetry. apply forallb_filter_id, forallb_forall. reflexivity.
  - change (settle a ((p, c0, r) :: occs) s)
      with (settle a occs (snd (visit a (p, c0, r) s))).
    rewrite IH by now apply visit_NoDup.
    simpl decisive.
    visit_cases c0 r s;
      try (rewrite remove_filter, filter_filter by assumption;
           apply filter_ext; intros c; rewrite (eqb_sym c0 c);
           now destruct (PyStr.eqb c c0));
      try (apply filter_ext; intros c; now destruct (PyStr.eqb c c0)).
    apply filter_ext_in. intros c Hc.
    destruct (PyStrFacts.eqb_spec c c0) as [->|Hn]; [|reflexivity].
    apply mem_In in Hc. congruence.
Qed.

(** The flag is raised when a record settled an identifier as resolved. *)
Lemma settle_resolved (occs : list occurrence) (s : state) :
  NoDup (ignored_cves s) ->
  resolved (settle a occs s) =
  resolved s
  || existsb (fun c => is_resolved (decisive (distribution a) c occs))
       (ignored_cves s).
Proof.
  revert s; induction occs as [|[[p c0] r] occs IH]; intros s Hnd.
  - simpl. clear Hnd.
    induction (ignored_cves s) as [|x l IHl]; simpl;
      [now rewrite orb_false_r | exact IHl].
  - change (settle a ((p, c0, r) :: occs) s)
      with (settle a occs (snd (visit a (p, c0, r) s))).
    rewrite IH by now apply visit_NoDup.
    simpl decisive.
    visit_cases c0 r s;
      try (f_equal; apply existsb_ext_in; intros c _;
           now destruct (PyStr.eqb c c0)).
    + symmetry. rewrite orb_true_iff. right. apply existsb_exists.
      exists c0. rewrite eqb_refl. simpl. split; [now apply mem_In | exact Hres].
    + f_equal. rewrite remove_filter, existsb_filter by assumption.
      apply existsb_ext_in. intros c _. rewrite (eqb_sym c0 c).
      destruct (PyStr.eqb c c0); simpl; congruence.
    + f_equal. apply existsb_ext_in. intros c Hc.
      destruct (PyStrFacts.eqb_spec c c0) as [->|Hn]; [|reflexivity].
      apply mem_In in Hc. congruence.
Qed.

(** The call that reports the status of an identifier a record settled. *)
Lemma settle_reported (occs : list occurrence) (s : state) (c : pystr)
  (st : pyobj) :
  NoDup (ignored_cves s) -> In c (ignored_cves s) ->
  decisive (distribution a) c occs = Some st ->
  In (if Py.eq_str st (lit "resolved") then resolved_call c
      else unresolved_call c)
     (trace (settle a occs s)).
Proof.
  revert s; induction occs as [|[[p c0] r] occs IH]; intros s Hnd Hin Hdec;
    [discriminate|].
  change (settle a ((p, c0, r) :: occs) s)
    with (settle a occs (snd (visit a (p, c0, r) s))).
  rewrite decisive_cons in Hdec.
  match type of Hdec with
  | match ?d with _ => _ end = _ => destruct d as [st'|] eqn:H1
  end.
  - injection Hdec as ->. apply settle_trace. simpl in H1.
    destruct (PyStrFacts.eqb_spec c c0) as [<-|Hn]; [|discriminate].
    apply mem_In in Hin. unfold visit, classify_with; simpl fst; simpl snd.
    rewrite Hin.
    destruct (status_of (distribution a) r) as [[st'|]|e];
      try discriminate.
    injection H1 as ->.
    destruct (Py.eq_str st (lit "resolved")); simpl;
      apply in_or_app; right; now left.
  - apply IH; [now apply visit_NoDup | now apply visit_keeps | assumption].
Qed.

(** The notes on the records of an identifier no record settled. *)
Lemma settle_noted (occs : list occurrence) (s : state) (p c : pystr)
  (r : pyobj) :
  NoDup (ignored_cves s) -> In c (ignored_cves s) ->
  decisive (distribution a) c occs = None ->
  In (p, c, r) occs ->
  (status_of (distribution a) r = Ok None ->
   In (not_in_call (distribution a) p) (trace (settle a occs s)))
  /\ (status_of (distribution a) r = Raise KeyError ->
      In (no_status_call c) (trace (settle a occs s))).
Proof.
  revert s; induction occs as [|[[p0 c0] r0] occs IH];
    intros s Hnd Hin Hdec Hocc; [contradiction|].
  change (settle a ((p0, c0, r0) :: occs) s)
    with (settle a occs (snd (visit a (p0, c0, r0) s))).
  rewrite decisive_cons in Hdec.
  match type of Hdec with
  | match ?d with _ => _ end = _ => destruct d as [st'|] eqn:H1
  end; [discriminate|].
  destruct Hocc as [[= -> -> ->]|Hocc].
  - apply mem_In in Hin.
    split; intros Hst; apply settle_trace;
      unfold visit, classify_with; simpl fst; simpl snd;
      rewrite Hin, Hst; simpl;
      apply in_or_app; right; now left.
  - apply IH; auto using visit_NoDup, visit_keeps.
Qed.

End Settle.

(** ** Runs that fetch a dataset *)

Lemma run_classified (w : world) (a : args) (lines : list pystr)
  (all_cves : pyobj) :
  fetched w a lines all_cves -> dataset_shape all_cves = true ->
  run w a = verdict (classified a lines all_cves).
Proof.
  intros [Hopen Hget] Hshape. rewrite run_eq, Hopen.
  destruct all_cves as [| | | | | |packages]; try discriminate.
  unfold check, retrieve_debian_data, bind at 1 2, emit. rewrite Hget.
  cbv beta iota. simpl. unfold bind at 1.
  change (trace (after_read a lines) ++ [HttpGet DEBIAN_URL])
    with (trace (after_fetch a lines)).
  change {| ignored_cves := ignored_cves (after_read a lines);
            resolved := resolved (after_read a lines);
            trace := trace (after_fetch a lines) |}
    with (after_fetch a lines).
  now rewrite (classify_all_settle a packages Hshape).
Qed.

Lemma verdict_eq (s : state) :
  verdict s =
  if resolved s then (Raise (SystemExit 1), s)
  else
    match ignored_cves s with
    | [] => (Ok tt, s)
    | _ :: _ =>
        (Raise (SystemExit 1),
         {| ignored_cves := ignored_cves s;
            resolved := resolved s;
            trace := trace s ++ [not_found_call (ignored_cves s)] |})
    end.
Proof.
  unfold verdict, bind, get_resolved, get_ignored_cves, sys_exit, raise,
    logger_error, emit, not_found_call.
  destruct (resolved s) eqn:Hr; [reflexivity|].
  destruct (ignored_cves s) eqn:Hi; simpl; now rewrite ?Hr, ?Hi.
Qed.

Lemma verdict_state (s : state) :
  ignored_cves (snd (verdict s)) = ignored_cves s
  /\ resolved (snd (verdict s)) = resolved s
  /\ forall e, In e (trace s) -> In e (trace (snd (verdict s))).
Proof.
  rewrite verdict_eq. destruct (resolved s) eqn:Hr; [auto|].
  destruct (ignored_cves s) eqn:Hi; simpl; auto using in_or_app.
Qed.

Lemma verdict_exit (s : state) :
  exit_status (fst (verdict s)) =
  if resolved s then 1%Z
  else match ignored_cves s with [] => 0%Z | _ :: _ => 1%Z end.
Proof.
  rewrite verdict_eq. destruct (resolved s); [reflexivity|].
  now destruct (ignored_cves s).
Qed.

Lemma classified_ignored (a : args) (lines : list pystr) (all_cves : pyobj) :
  ignored_cves (classified a lines all_cves) =
  filter (fun c => is_unsettled
                     (decisive (distribution a) c (occurrences all_cves)))
         (filter_lines lines).
Proof. apply settle_ignored, filter_lines_NoDup. Qed.

Lemma classified_resolved (a : args) (lines : list pystr)
  (all_cves : pyobj) :
  resolved (classified a lines all_cves) =
  existsb (fun c => is_resolved
                      (decisive (distribution a) c (occurrences all_cves)))
          (filter_lines lines).
Proof.
  unfold classified. rewrite settle_resolved by apply filter_lines_NoDup.
  reflexivity.
Qed.

Lemma emitted_log_output (e : event) (tr : list event) :
  In e tr -> emitted e = true -> In e (log_output tr).
Proof. intros. apply filter_In; auto. Qed.

(** ** The claims *)

(** C1, as amended.  When the first record of an ignored identifier that
    carries a status for the distribution says [resolved], the run logs the
    warning that names the identifier and exits with status 1. *)
Theorem resolved_entry_fails (w : world) (a : args) (lines : list pystr)
  (all_cves : pyobj) (cve : pystr) :
  fetched w a lines all_cves ->
  dataset_shape all_cves = true ->
  In cve (filter_lines lines) ->
  is_resolved (decisive (distribution a) cve (occurrences all_cves)) = true ->
  In (resolved_call cve) (log_output (trace (snd (run w a))))
  /\ exit_status (fst (run w a)) = 1%Z.
Proof.
  intros Hf Hshape Hin Hres.
  rewrite (run_classified Hf Hshape). split.
  - apply emitted_log_output; [|reflexivity].
    apply verdict_state.
    destruct (decisive (distribution a) cve (occurrences all_cves))
      as [st|] eqn:Hdec; [|discriminate].
    simpl in Hres.
    pose proof (settle_reported a (occurrences all_cves)
                  (after_fetch a lines) cve
                  (filter_lines_NoDup lines) Hin Hdec) as H.
    now rewrite Hres in H.
  - rewrite verdict_exit, classified_resolved.
    replace (existsb _ _) with true; [reflexivity|].
    symmetry. apply existsb_exists. now exists cve.
Qed.

Lemma resolved_entry_fails_witness :
  In (resolved_call Sample.cve1)
     (log_output (trace (snd (Sample.run_on Sample.ignore_file
        (Sample.two_packages Sample.cve1
           Sample.other_release_record Sample.resolved_record)))))
  /\ exit_status (fst (Sample.run_on Sample.ignore_file
        (Sample.two_packages Sample.cve1
           Sample.other_release_record Sample.resolved_record))) = 1%Z.
Proof.
  apply (@resolved_entry_fails _ _ Sample.ignore_file
           (Sample.two_packages Sample.cve1
              Sample.other_release_record Sample.resolved_record)
           Sample.cve1).
  - split; reflexivity.
  - vm_compute; reflexivity.
  - vm_compute; auto.
  - vm_compute; reflexivity.
Defined.

(** C1 as stated fails: the identifier is resolved for bullseye under the
    second package, its record under the first package says [open]; the
    run removes it at the first record, never reads the second, logs no
    warning and exits with status 0. *)
Lemma resolved_under_later_package_passes :
  let all_cves :=
    Sample.two_packages Sample.cve1 Sample.open_record Sample.resolved_record in
  let r := Sample.run_on [Sample.cve1] all_cves in
  dataset_shape all_cves = true
  /\ filter_lines [Sample.cve1] = [Sample.cve1]
  /\ Py.bind (record_at all_cves (lit "curl") Sample.cve1)
       (status_of Sample.bullseye) = Ok (Some (PStr (lit "resolved")))
  /\ fst r = Ok tt
  /\ exit_status (fst r) = 0%Z
  /\ occurs (resolved_call Sample.cve1) (trace (snd r)) = 0
  /\ log_output (trace (snd r)) = [].
Proof. vm_compute. repeat split. Qed.

(** C2.  When every entry of the ignore list is settled by a record whose
    status for the distribution is not [resolved], the loops empty the
    list, the flag stays down and the run ends with status 0. *)
Theorem unresolved_entries_pass (w : world) (a : args) (lines : list pystr)
  (all_cves : pyobj) :
  fetched w a lines all_cves ->
  dataset_shape all_cves = true ->
  (forall cve, In cve (filter_lines lines) ->
     exists st,
       decisive (distribution a) cve (occurrences all_cves) = Some st
       /\ Py.eq_str st (lit "resolved") = false) ->
  fst (run w a) = Ok tt
  /\ exit_status (fst (run w a)) = 0%Z
  /\ resolved (snd (run w a)) = false
  /\ ignored_cves (snd (run w a)) = [].
Proof.
  intros Hf Hshape Hall.
  rewrite (run_classified Hf Hshape), verdict_eq.
  assert (Hr : resolved (classified a lines all_cves) = false).
  { rewrite classified_resolved.
    apply not_true_is_false. intros H. apply existsb_exists in H.
    destruct H as [c [Hc Hres]]. destruct (Hall c Hc) as [st [Hd Hs]].
    rewrite Hd in Hres. simpl in Hres. congruence. }
  assert (Hi : ignored_cves (classified a lines all_cves) = []).
  { rewrite classified_ignored.
    destruct (filter _ _) as [|c l] eqn:Hfl; [reflexivity|].
    assert (Hc : In c (c :: l)) by now left.
    rewrite <- Hfl in Hc. apply filter_In in Hc. destruct Hc as [Hc Hu].
    destruct (Hall c Hc) as [st [Hd _]]. rewrite Hd in Hu. discriminate. }
  rewrite Hr, Hi. simpl. auto.
Qed.

Lemma unresolved_entries_pass_witness :
  let r := Sample.run_on [Sample.cve1]
             (Sample.one_package Sample.cve1 Sample.open_record) in
  fst r = Ok tt /\ exit_status (fst r) = 0%Z
  /\ resolved (snd r) = false /\ ignored_cves (snd r) = [].
Proof.
  apply (@unresolved_entries_pass _ _ [Sample.cve1]
           (Sample.one_package Sample.cve1 Sample.open_record)).
  - split; reflexivity.
  - vm_compute; reflexivity.
  - intros cve Hin. vm_compute in Hin. destruct Hin as [<-|[]].
    exists (PStr (lit "open")). vm_compute. auto.
Defined.

Lemma decisive_app (a : args) (c : pystr) (l1 l2 : list occurrence) :
  decisive (distribution a) c (l1 ++ l2) =
  match decisive (distribution a) c l1 with
  | Some st => Some st
  | None => decisive (distribution a) c l2
  end.
Proof.
  induction l1 as [|occ l1 IH]; [reflexivity|].
  simpl app. rewrite (decisive_cons a c occ (l1 ++ l2)), IH.
  rewrite (decisive_cons a c occ l1).
  now destruct (decisive (distribution a) c [occ]).
Qed.

Lemma settle_app (a : args) (l1 l2 : list occurrence) (s : state) :
  settle a (l1 ++ l2) s = settle a l2 (settle a l1 s).
Proof. apply fold_left_app. Qed.

(** A record of an identifier that gives no status, met while no earlier
    record has settled the identifier: the identifier is still on the
    list after the turn on this record, and the turn logs its note. *)
Lemma settle_noted_at (a : args) (before after : list occurrence)
  (s : state) (p c : pystr) (r : pyobj) :
  NoDup (ignored_cves s) -> In c (ignored_cves s) ->
  decisive (distribution a) c before = None ->
  (forall st, status_of (distribution a) r <> Ok (Some st)) ->
  In c (ignored_cves (settle a (before ++ [(p, c, r)]) s))
  /\ (status_of (distribution a) r = Ok None ->
      In (not_in_call (distribution a) p)
         (trace (settle a (before ++ (p, c, r) :: after) s)))
  /\ (status_of (distribution a) r = Raise KeyError ->
      In (no_status_call c)
         (trace (settle a (before ++ (p, c, r) :: after) s))).
Proof.
  intros Hnd Hin Hbefore Hst.
  assert (Hd : decisive (distribution a) c (before ++ [(p, c, r)]) = None).
  { rewrite decisive_app, Hbefore. simpl. rewrite eqb_refl.
    destruct (status_of (distribution a) r) as [[st|]|e] eqn:Hs;
      [exfalso; now apply (Hst st) | reflexivity | reflexivity]. }
  assert (Hocc : In (p, c, r) (before ++ [(p, c, r)])).
  { apply in_or_app. right. now left. }
  destruct (settle_noted a (before ++ [(p, c, r)]) s p c r Hnd Hin Hd Hocc)
    as [H1 H2].
  assert (Happ : settle a (before ++ (p, c, r) :: after) s =
                 settle a after (settle a (before ++ [(p, c, r)]) s)).
  { rewrite <- settle_app, <- app_assoc. reflexivity. }
  split; [|split].
  - rewrite settle_ignored by assumption. apply filter_In. now rewrite Hd.
  - intros H. rewrite Happ. apply settle_trace. now apply H1.
  - intros H. rewrite Happ. apply settle_trace. now apply H2.
Qed.

(** An entry no record settles stays on the list to the end; the run
    fails, and reports the list when no identifier was found resolved. *)
Lemma unsettled_entry_fails (w : world) (a : args) (lines : list pystr)
  (all_cves : pyobj) (cve : pystr) :
  fetched w a lines all_cves ->
  dataset_shape all_cves = true ->
  In cve (filter_lines lines) ->
  decisive (distribution a) cve (occurrences all_cves) = None ->
  In cve (ignored_cves (snd (run w a)))
  /\ exit_status (fst (run w a)) = 1%Z
  /\ (resolved (snd (run w a)) = false ->
      In (not_found_call (ignored_cves (snd (run w a))))
         (log_output (trace (snd (run w a))))).
Proof.
  intros Hf Hshape Hin Hdec. rewrite (run_classified Hf Hshape).
  assert (Hc : In cve (ignored_cves (classified a lines all_cves))).
  { rewrite classified_ignored. apply filter_In. now rewrite Hdec. }
  destruct (verdict_state (classified a lines all_cves)) as [Hi [Hr _]].
  rewrite Hi, Hr. clear Hi Hr. repeat split.
  - assumption.
  - rewrite verdict_exit. destruct (resolved _); [reflexivity|].
    destruct (ignored_cves _); [contradiction | reflexivity].
  - intros Hres. rewrite verdict_eq, Hres.
    destruct (ignored_cves (classified a lines all_cves)) eqn:He;
      [contradiction|].
    simpl. apply emitted_log_output; [|reflexivity].
    apply in_or_app; right; now left.
Qed.

(** C3, as amended.  On a dataset of the expected shape, take a record
    of an ignored identifier whose releases do not name the distribution,
    such that no earlier record of the identifier, in the order of the
    loops, carries a status for the distribution.  The run logs the note
    on the distribution and the package, and the identifier is still on
    the ignore list after the turn on this record.  When no later record
    of the identifier carries a status for the distribution either, the
    identifier stays on the list to the end, the run exits with status 1,
    and when no identifier was found resolved the run reports the
    remaining list, the identifier in it. *)
Theorem absent_distribution_unmatched (w : world) (a : args)
  (lines : list pystr) (all_cves : pyobj) (package cve : pystr)
  (record : pyobj) (before after : list occurrence) :
  fetched w a lines all_cves ->
  dataset_shape all_cves = true ->
  In cve (filter_lines lines) ->
  occurrences all_cves = before ++ (package, cve, record) :: after ->
  status_of (distribution a) record = Ok None ->
  decisive (distribution a) cve before = None ->
  In (not_in_call (distribution a) package)
     (log_output (trace (snd (run w a))))
  /\ In cve (ignored_cves
               (settle a (before ++ [(package, cve, record)])
                  (after_fetch a lines)))
  /\ (decisive (distribution a) cve after = None ->
      In cve (ignored_cves (snd (run w a)))
      /\ exit_status (fst (run w a)) = 1%Z
      /\ (resolved (snd (run w a)) = false ->
          In (not_found_call (ignored_cves (snd (run w a))))
             (log_output (trace (snd (run w a)))))).
Proof.
  intros Hf Hshape Hin Hocc Hst Hbefore.
  assert (Hno : forall st, status_of (distribution a) record <> Ok (Some st))
    by (intros st; rewrite Hst; discriminate).
  destruct (settle_noted_at a before after (after_fetch a lines)
              package cve record (filter_lines_NoDup lines) Hin Hbefore Hno)
    as [Hkept [Hnote _]].
  split; [|split; [exact Hkept|]].
  - rewrite (run_classified Hf Hshape).
    apply emitted_log_output; [|reflexivity]. apply verdict_state.
    unfold classified. rewrite Hocc. now apply Hnote.
  - intros Hafter. eapply unsettled_entry_fails; try eassumption.
    rewrite Hocc, decisive_app, Hbefore. simpl.
    now rewrite eqb_refl, Hst.
Qed.

Lemma absent_distribution_unmatched_witness :
  let all_cves :=
    Sample.two_packages Sample.cve1
      Sample.other_release_record Sample.no_status_record in
  let a := args_of Sample.bullseye in
  let r := Sample.run_on [Sample.cve1] all_cves in
  In (not_in_call Sample.bullseye (lit "openssl"))
     (log_output (trace (snd r)))
  /\ In Sample.cve1
       (ignored_cves
          (settle a
             ([] ++ [(lit "openssl", Sample.cve1,
                      Sample.other_release_record)])
             (after_fetch a [Sample.cve1])))
  /\ (decisive Sample.bullseye Sample.cve1
        [(lit "curl", Sample.cve1, Sample.no_status_record)] = None ->
      In Sample.cve1 (ignored_cves (snd r))
      /\ exit_status (fst r) = 1%Z
      /\ (resolved (snd r) = false ->
          In (not_found_call (ignored_cves (snd r)))
             (log_output (trace (snd r))))).
Proof.
  apply (@absent_distribution_unmatched
           (world_of [Sample.cve1] 200
              (Some (Sample.two_packages Sample.cve1
                       Sample.other_release_record
                       Sample.no_status_record)))
           (args_of Sample.bullseye) [Sample.cve1]
           (Sample.two_packages Sample.cve1
              Sample.other_release_record Sample.no_status_record)
           (lit "openssl") Sample.cve1 Sample.other_release_record
           [] [(lit "curl", Sample.cve1, Sample.no_status_record)]).
  - split; reflexivity.
  - vm_compute; reflexivity.
  - vm_compute; auto.
  - vm_compute; reflexivity.
  - vm_compute; reflexivity.
  - vm_compute; reflexivity.
Defined.

(** Why the earlier records matter: when the record under the first
    package says [open], the identifier is off the list when the loop
    comes to the record that does not name bullseye, and no note is
    logged. *)
Example absent_distribution_after_match :
  let r := Sample.run_on [Sample.cve1]
             (Sample.two_packages Sample.cve1
                Sample.open_record Sample.other_release_record) in
  fst r = Ok tt /\ log_output (trace (snd r)) = [].
Proof. vm_compute. split; reflexivity. Qed.

(** C3 as stated fails: the record of the identifier under the first
    package does not name bullseye, its record under the second package
    says [open]; the run removes the identifier at the second record,
    reports nothing as not found and exits with status 0. *)
Lemma absent_distribution_matched_later :
  let all_cves :=
    Sample.two_packages Sample.cve1
      Sample.other_release_record Sample.open_record in
  let r := Sample.run_on [Sample.cve1] all_cves in
  dataset_shape all_cves = true
  /\ filter_lines [Sample.cve1] = [Sample.cve1]
  /\ Py.bind (record_at all_cves (lit "openssl") Sample.cve1)
       (status_of Sample.bullseye) = Ok None
  /\ resolved (snd r) = false
  /\ ignored_cves (snd r) = []
  /\ exit_status (fst r) = 0%Z
  /\ log_output (trace (snd r)) =
       [not_in_call Sample.bullseye (lit "openssl")].
Proof. vm_compute. repeat split. Qed.

Lemma getitem_contains (o v : pyobj) (k : pystr) :
  Py.getitem o k = Ok v -> Py.contains o k = Ok true.
Proof.
  destruct o as [| | | | | |items]; try discriminate. simpl.
  destruct (Py.dict_get items k) as [v'|] eqn:Hg; [|discriminate].
  intros _. f_equal. apply existsb_exists. exists (k, v'). split.
  - now apply dict_get_In.
  - apply eqb_refl.
Qed.

(** C6, as amended.  On a dataset of the expected shape, take a record
    of an ignored identifier that has an entry for the distribution
    without [status], such that no earlier record of the identifier, in
    the order of the loops, carries a status for the distribution.  The run
    logs the warning that the status was not found, and the identifier is
    still on the ignore list after the turn on this record.  When no later
    record of the identifier carries a status for the distribution either,
    the identifier stays on the list to the end, the run exits with status
    1, and when no identifier was found resolved the run reports the
    remaining list, the identifier in it. *)
Theorem missing_status_unmatched (w : world) (a : args)
  (lines : list pystr) (all_cves : pyobj) (package cve : pystr)
  (record releases entry : pyobj) (before after : list occurrence) :
  fetched w a lines all_cves ->
  dataset_shape all_cves = true ->
  In cve (filter_lines lines) ->
  occurrences all_cves = before ++ (package, cve, record) :: after ->
  Py.getitem record (lit "releases") = Ok releases ->
  Py.getitem releases (distribution a) = Ok entry ->
  Py.getitem entry (lit "status") = Raise KeyError ->
  decisive (distribution a) cve before = None ->
  In (no_status_call cve) (log_output (trace (snd (run w a))))
  /\ In cve (ignored_cves
               (settle a (before ++ [(package, cve, record)])
                  (after_fetch a lines)))
  /\ (decisive (distribution a) cve after = None ->
      In cve (ignored_cves (snd (run w a)))
      /\ exit_status (fst (run w a)) = 1%Z
      /\ (resolved (snd (run w a)) = false ->
          In (not_found_call (ignored_cves (snd (run w a))))
             (log_output (trace (snd (run w a)))))).
Proof.
  intros Hf Hshape Hin Hocc Hrel Hent Hstat Hbefore.
  assert (Hst : status_of (distribution a) record = Raise KeyError).
  { unfold status_of. rewrite Hrel. cbn [Py.bind].
    rewrite (getitem_contains _ _ Hent). cbn [Py.bind negb].
    rewrite Hent. cbn [Py.bind]. now rewrite Hstat. }
  assert (Hno : forall st, status_of (distribution a) record <> Ok (Some st))
    by (intros st; rewrite Hst; discriminate).
  destruct (settle_noted_at a before after (after_fetch a lines)
              package cve record (filter_lines_NoDup lines) Hin Hbefore Hno)
    as [Hkept [_ Hnote]].
  split; [|split; [exact Hkept|]].
  - rewrite (run_classified Hf Hshape).
    apply emitted_log_output; [|reflexivity]. apply verdict_state.
    unfold classified. rewrite Hocc. now apply Hnote.
  - intros Hafter. eapply unsettled_entry_fails; try eassumption.
    rewrite Hocc, decisive_app, Hbefore. simpl.
    now rewrite eqb_refl, Hst.
Qed.

Lemma missing_status_unmatched_witness :
  let all_cves :=
    Sample.two_packages Sample.cve1
      Sample.no_status_record Sample.other_release_record in
  let a := args_of Sample.bullseye in
  let r := Sample.run_on [Sample.cve1] all_cves in
  In (no_status_call Sample.cve1) (log_output (trace (snd r)))
  /\ In Sample.cve1
       (ignored_cves
          (settle a
             ([] ++ [(lit "openssl", Sample.cve1, Sample.no_status_record)])
             (after_fetch a [Sample.cve1])))
  /\ (decisive Sample.bullseye Sample.cve1
        [(lit "curl", Sample.cve1, Sample.other_release_record)] = None ->
      In Sample.cve1 (ignored_cves (snd r))
      /\ exit_status (fst r) = 1%Z
      /\ (resolved (snd r) = false ->
          In (not_found_call (ignored_cves (snd r)))
             (log_output (trace (snd r))))).
Proof.
  apply (@missing_status_unmatched
           (world_of [Sample.cve1] 200
              (Some (Sample.two_packages Sample.cve1
                       Sample.no_status_record
                       Sample.other_release_record)))
           (args_of Sample.bullseye) [Sample.cve1]
           (Sample.two_packages Sample.cve1
              Sample.no_status_record Sample.other_release_record)
           (lit "openssl") Sample.cve1 Sample.no_status_record
           (PDict [(Sample.bullseye,
                    PDict [(lit "urgency", PStr (lit "low"))])])
           (PDict [(lit "urgency", PStr (lit "low"))])
           [] [(lit "curl", Sample.cve1, Sample.other_release_record)]).
  - split; reflexivity.
  - vm_compute; reflexivity.
  - vm_compute; auto.
  - vm_compute; reflexivity.
  - vm_compute; reflexivity.
  - vm_compute; reflexivity.
  - vm_compute; reflexivity.
  - vm_compute; reflexivity.
Defined.

(** Why the earlier records matter: when the record under the first
    package says [open], the identifier is off the list when the loop
    comes to the record without status, and no warning is logged. *)
Example missing_status_after_match :
  let r := Sample.run_on [Sample.cve1]
             (Sample.two_packages Sample.cve1
                Sample.open_record Sample.no_status_record) in
  fst r = Ok tt /\ log_output (trace (snd r)) = [].
Proof. vm_compute. split; reflexivity. Qed.

(** C6 as stated fails: the bullseye entry of the identifier under the
    first package has no status, its record under the second package says
    [open]; the run warns at the first record, removes the identifier at
    the second, and exits with status 0 with an empty ignore list. *)
Lemma missing_status_matched_later :
  let all_cves :=
    Sample.two_packages Sample.cve1
      Sample.no_status_record Sample.open_record in
  let r := Sample.run_on [Sample.cve1] all_cves in
  dataset_shape all_cves = true
  /\ filter_lines [Sample.cve1] = [Sample.cve1]
  /\ Py.bind (record_at all_cves (lit "openssl") Sample.cve1)
       (status_of Sample.bullseye) = Raise KeyError
  /\ ignored_cves (snd r) = []
  /\ exit_status (fst r) = 0%Z
  /\ log_output (trace (snd r)) = [no_status_call Sample.cve1].
Proof. vm_compute. repeat split. Qed.

(** C4.  When the response to the one request has a status other than
    200, the run prints the failure message with the address of the
    tracker and leaves with [sys.exit(1)]: the trace holds the opening of
    the ignore file, the request and the message, no call of the logger is
    made and the ignore list is as it was read. *)
Theorem fetch_failure_aborts (w : world) (a : args) (lines : list pystr)
  (resp : response) :
  open_file w (trivy_ignore a) = Some lines ->
  requests_get w DEBIAN_URL = Some resp ->
  status_code resp <> 200%Z ->
  run w a =
    (Raise (SystemExit 1),
     {| ignored_cves := filter_lines lines;
        resolved := false;
        trace := [Open (trivy_ignore a); HttpGet DEBIAN_URL;
                  fetch_failed_print] |})
  /\ exit_status (fst (run w a)) = 1%Z
  /\ In (Print "Error while retrieving the data from {}" [AStr DEBIAN_URL])
        (trace (snd (run w a)))
  /\ (forall lv template l,
        ~ In (LogCall lv template l) (trace (snd (run w a)))).
Proof.
  intros Hopen Hget Hcode.
  assert (Hrun : run w a =
    (Raise (SystemExit 1),
     {| ignored_cves := filter_lines lines;
        resolved := false;
        trace := [Open (trivy_ignore a); HttpGet DEBIAN_URL;
                  fetch_failed_print] |})).
  { rewrite run_eq, Hopen.
    unfold check, retrieve_debian_data, bind at 1 2, emit. rewrite Hget.
    apply Z.eqb_neq in Hcode. rewrite Hcode. reflexivity. }
  rewrite Hrun. repeat split.
  - simpl. auto.
  - intros lv template l [H|[H|[H|[]]]]; discriminate.
Qed.

Lemma fetch_failure_aborts_witness :
  let w := world_of Sample.ignore_file 503 None in
  let a := args_of Sample.bullseye in
  run w a =
    (Raise (SystemExit 1),
     {| ignored_cves := filter_lines Sample.ignore_file;
        resolved := false;
        trace := [Open (trivy_ignore a); HttpGet DEBIAN_URL;
                  fetch_failed_print] |})
  /\ exit_status (fst (run w a)) = 1%Z
  /\ In (Print "Error while retrieving the data from {}" [AStr DEBIAN_URL])
        (trace (snd (run w a)))
  /\ (forall lv template l,
        ~ In (LogCall lv template l) (trace (snd (run w a)))).
Proof.
  apply (@fetch_failure_aborts (world_of Sample.ignore_file 503 None)
           (args_of Sample.bullseye) Sample.ignore_file
           {| status_code := 503; content := None |}).
  - reflexivity.
  - reflexivity.
  - simpl. lia.
Defined.

(** C8.  When the ignore file cannot be opened or read, the run ends on
    the exception of [read_trivy_filter], with exit status 1, and its
    trace holds the attempt to open the file and nothing else: no request
    is sent. *)
Theorem unreadable_file_aborts (w : world) (a : args) :
  open_file w (trivy_ignore a) = None ->
  fst (run w a) = Raise OSError
  /\ exit_status (fst (run w a)) = 1%Z
  /\ trace (snd (run w a)) = [Open (trivy_ignore a)]
  /\ (forall url, ~ In (HttpGet url) (trace (snd (run w a)))).
Proof.
  intros Hopen. rewrite run_eq, Hopen. simpl. repeat split.
  intros url [H|[]]; discriminate.
Qed.

Lemma unreadable_file_aborts_witness :
  let w := {| open_file := fun _ => None;
              requests_get := fun _ =>
                Some {| status_code := 200; content := Some (PDict []) |} |} in
  let a := args_of Sample.bullseye in
  fst (run w a) = Raise OSError
  /\ exit_status (fst (run w a)) = 1%Z
  /\ trace (snd (run w a)) = [Open (trivy_ignore a)]
  /\ (forall url, ~ In (HttpGet url) (trace (snd (run w a)))).
Proof.
  apply (@unreadable_file_aborts
           {| open_file := fun _ => None;
              requests_get := fun _ =>
                Some {| status_code := 200; content := Some (PDict []) |} |}
           (args_of Sample.bullseye)).
  reflexivity.
Defined.

(** C9.  Two runs with the same command line, in two worlds where the
    ignore file has the same content and the tracker gives the same
    response, end alike: same exit status, same ignore list, same flag,
    same trace.  (The time stamps of the log lines are not modelled.) *)
Theorem run_deterministic (w1 w2 : world) (a : args) :
  open_file w1 (trivy_ignore a) = open_file w2 (trivy_ignore a) ->
  requests_get w1 DEBIAN_URL = requests_get w2 DEBIAN_URL ->
  run w1 a = run w2 a
  /\ exit_status (fst (run w1 a)) = exit_status (fst (run w2 a))
  /\ ignored_cves (snd (run w1 a)) = ignored_cves (snd (run w2 a))
  /\ resolved (snd (run w1 a)) = resolved (snd (run w2 a))
  /\ log_output (trace (snd (run w1 a))) =
     log_output (trace (snd (run w2 a))).
Proof.
  intros Hopen Hget.
  assert (H : run w1 a = run w2 a).
  { rewrite !run_eq, Hopen.
    destruct (open_file w2 (trivy_ignore a)) as [lines|]; [|reflexivity].
    unfold check, retrieve_debian_data. now rewrite Hget. }
  rewrite H. auto.
Qed.

Lemma run_deterministic_witness :
  let all_cves :=
    Sample.two_packages Sample.cve1
      Sample.other_release_record Sample.resolved_record in
  let w1 := world_of Sample.ignore_file 200 (Some all_cves) in
  let w2 := {| open_file := fun path =>
                 if PyStr.eqb path (lit ".trivyignore")
                 then Some Sample.ignore_file else None;
               requests_get := fun url =>
                 if PyStr.eqb url DEBIAN_URL
                 then Some {| status_code := 200; content := Some all_cves |}
                 else None |} in
  let a := args_of Sample.bullseye in
  run w1 a = run w2 a
  /\ exit_status (fst (run w1 a)) = exit_status (fst (run w2 a))
  /\ ignored_cves (snd (run w1 a)) = ignored_cves (snd (run w2 a))
  /\ resolved (snd (run w1 a)) = resolved (snd (run w2 a))
  /\ log_output (trace (snd (run w1 a))) =
     log_output (trace (snd (run w2 a))).
Proof.
  intros all_cves w1 w2 a.
  apply (@run_deterministic w1 w2 a); vm_compute; reflexivity.
Defined.

(** An identifier is unsettled when none of its records carries a status
    for the distribution: on a record of the expected shape, when the
    distribution is absent from the releases or the status is missing. *)
Lemma decisive_None (dist c : pystr) (occs : list occurrence) :
  decisive dist c occs = None <->
  forall p r, In (p, c, r) occs ->
    forall st, status_of dist r <> Ok (Some st).
Proof.
  induction occs as [|[[p0 c0] r0] occs IH]; simpl.
  - split; [contradiction | reflexivity].
  - destruct (PyStrFacts.eqb_spec c c0) as [<-|Hn].
    + destruct (status_of dist r0) as [[st0|]|e] eqn:Hst.
      * split; [discriminate|]. intros H. exfalso.
        apply (H p0 r0 (or_introl eq_refl) st0 Hst).
      * rewrite IH. split.
        -- intros H p r [[= <- <-]|Hin]; [congruence | now apply (H p)].
        -- intros H p r Hin. apply (H p). now right.
      * rewrite IH. split.
        -- intros H p r [[= <- <-]|Hin]; [congruence | now apply (H p)].
        -- intros H p r Hin. apply (H p). now right.
    + rewrite IH. split.
      * intros H p r [[= _ Hc _]|Hin]; [congruence | now apply (H p)].
      * intros H p r Hin. apply (H p). now right.
Qed.

Lemma unsettled_records (dist c : pystr) (all_cves : pyobj) :
  dataset_shape all_cves = true ->
  decisive dist c (occurrences all_cves) = None <->
  forall p r, In (p, c, r) (occurrences all_cves) ->
    status_of dist r = Ok None \/ status_of dist r = Raise KeyError.
Proof.
  intros Hshape. rewrite decisive_None.
  destruct all_cves as [| | | | | |packages]; try discriminate.
  pose proof (occurrences_shape packages Hshape) as Hall.
  rewrite Forall_forall in Hall.
  split; intros H p r Hin.
  - specialize (Hall _ Hin). simpl in Hall.
    destruct (status_of_shape dist r Hall) as [Hs|[[st Hs]|Hs]]; auto.
    exfalso. apply (H p r Hin st Hs).
  - intros st Hs. destruct (H p r Hin); congruence.
Qed.

Lemma sound_states (entries : list pystr) (s : state) (cve : pystr) :
  sound entries s -> In cve entries ->
  matched_unresolved s cve \/ matched_resolved s cve \/ never_matched s cve.
Proof.
  intros [[Hnd Hacc] _] Hin. destruct (Hacc cve) as [H1 [H2 _]].
  unfold matched_unresolved, matched_resolved, never_matched.
  destruct (mem cve (ignored_cves s)) eqn:Hm.
  - apply mem_In in Hm. destruct (H1 Hm) as [_ H0]. unfold matches in H0.
    right; right. repeat split; [assumption | lia | lia].
  - apply mem_not_In in Hm. specialize (H2 Hm Hin). unfold matches in H2.
    destruct (occurs (resolved_call cve) (trace s)) as [|[|n]] eqn:Hr.
    + left. repeat split; [assumption | lia].
    + right; left. repeat split; [assumption | lia].
    + lia.
Qed.

(** C7.  In every run that reads its ignore file, each entry ends in
    exactly one of the three states.  When the run fetched a dataset of
    the expected shape, the state is the one the dataset gives the entry:
    found and not resolved, or resolved, when the first record with a
    status for the distribution says so; never matched when the entry has
    no record with a status for the distribution, that is when each of its
    records, if it has any, lacks the distribution or the status. *)
Theorem entry_states (w : world) (a : args) (lines : list pystr)
  (cve : pystr) :
  open_file w (trivy_ignore a) = Some lines ->
  In cve (filter_lines lines) ->
  (matched_unresolved (snd (run w a)) cve
   \/ matched_resolved (snd (run w a)) cve
   \/ never_matched (snd (run w a)) cve)
  /\ ~ (matched_unresolved (snd (run w a)) cve
        /\ matched_resolved (snd (run w a)) cve)
  /\ ~ (matched_unresolved (snd (run w a)) cve
        /\ never_matched (snd (run w a)) cve)
  /\ ~ (matched_resolved (snd (run w a)) cve
        /\ never_matched (snd (run w a)) cve)
  /\ forall all_cves,
       fetched w a lines all_cves -> dataset_shape all_cves = true ->
       (matched_unresolved (snd (run w a)) cve <->
          exists st,
            decisive (distribution a) cve (occurrences all_cves) = Some st
            /\ Py.eq_str st (lit "resolved") = false)
       /\ (matched_resolved (snd (run w a)) cve <->
             is_resolved
               (decisive (distribution a) cve (occurrences all_cves)) = true)
       /\ (never_matched (snd (run w a)) cve <->
             decisive (distribution a) cve (occurrences all_cves) = None)
       /\ (never_matched (snd (run w a)) cve <->
             forall package record,
               In (package, cve, record) (occurrences all_cves) ->
               status_of (distribution a) record = Ok None
               \/ status_of (distribution a) record = Raise KeyError).
Proof.
  intros Hopen Hin.
  pose proof (sound_states cve (run_sound w a Hopen) Hin) as Hone.
  assert (Hur : ~ (matched_unresolved (snd (run w a)) cve
                   /\ matched_resolved (snd (run w a)) cve)).
  { intros [[_ [H1 _]] [_ [_ H2]]]. congruence. }
  assert (Hun : ~ (matched_unresolved (snd (run w a)) cve
                   /\ never_matched (snd (run w a)) cve)).
  { intros [[H1 _] [H2 _]]. contradiction. }
  assert (Hrn : ~ (matched_resolved (snd (run w a)) cve
                   /\ never_matched (snd (run w a)) cve)).
  { intros [[H1 _] [H2 _]]. contradiction. }
  split; [exact Hone|]. split; [exact Hur|]. split; [exact Hun|].
  split; [exact Hrn|]. intros all_cves Hf Hshape.
  rewrite <- (unsettled_records (distribution a) cve all_cves Hshape).
  cut (forall A B C : Prop, A /\ B /\ C -> A /\ B /\ C /\ C); [|tauto].
  intros Hdup; apply Hdup; clear Hdup.
  pose proof (run_classified Hf Hshape) as Hrun.
  destruct (verdict_state (classified a lines all_cves)) as [Hi [_ Htr]].
  rewrite <- Hrun in Hi, Htr.
  pose proof (classified_ignored a lines all_cves) as Hci.
  destruct (decisive (distribution a) cve (occurrences all_cves))
    as [st|] eqn:Hdec.
  - pose proof (settle_reported a (occurrences all_cves)
                  (after_fetch a lines) cve
                  (filter_lines_NoDup lines) Hin Hdec) as Hrep.
    assert (Hgone : ~ In cve (ignored_cves (snd (run w a)))).
    { rewrite Hi, Hci, filter_In, Hdec. simpl. intros [_ ?]; discriminate. }
    simpl is_resolved.
    destruct (Py.eq_str st (lit "resolved")) eqn:Hres;
      apply Htr, occurs_In in Hrep;
      unfold matched_unresolved, matched_resolved, never_matched in *.
    + split; [|split]; split; try discriminate; try tauto.
      * intros [_ [_ H0]]. lia.
      * intros [st' [[= <-] ?]]. congruence.
      * intros _. destruct Hone as [H|[H|H]]; [|exact H|tauto].
        destruct H as [_ [_ H0]]. lia.
    + split; [|split]; split; try discriminate; try tauto.
      * intros _. exists st. auto.
      * intros _. destruct Hone as [H|[H|H]]; [exact H| |tauto].
        destruct H as [_ [_ H0]]. lia.
      * intros [_ [_ H0]]. lia.
  - assert (Hleft : In cve (ignored_cves (snd (run w a)))).
    { rewrite Hi, Hci. apply filter_In. now rewrite Hdec. }
    unfold matched_unresolved, matched_resolved, never_matched in *.
    simpl is_resolved.
    split; [|split]; split; try discriminate; try tauto.
    intros [st' [? _]]. discriminate.
Qed.

Lemma entry_states_witness :
  let r := Sample.run_on Sample.ignore_file
             (Sample.two_packages Sample.cve1
                Sample.other_release_record Sample.resolved_record) in
  let all := fun cve =>
    (matched_unresolved (snd r) cve
     \/ matched_resolved (snd r) cve
     \/ never_matched (snd r) cve)
    /\ ~ (matched_unresolved (snd r) cve /\ matched_resolved (snd r) cve)
    /\ ~ (matched_unresolved (snd r) cve /\ never_matched (snd r) cve)
    /\ ~ (matched_resolved (snd r) cve /\ never_matched (snd r) cve) in
  all Sample.cve1 /\ all Sample.cve2.
Proof.
  split.
  - pose proof (@entry_states
      (world_of Sample.ignore_file 200
         (Some (Sample.two_packages Sample.cve1
                  Sample.other_release_record Sample.resolved_record)))
      (args_of Sample.bullseye) Sample.ignore_file Sample.cve1
      eq_refl) as H.
    destruct H as [H1 [H2 [H3 [H4 _]]]]; [vm_compute; auto|].
    repeat split; assumption.
  - pose proof (@entry_states
      (world_of Sample.ignore_file 200
         (Some (Sample.two_packages Sample.cve1
                  Sample.other_release_record Sample.resolved_record)))
      (args_of Sample.bullseye) Sample.ignore_file Sample.cve2
      eq_refl) as H.
    destruct H as [H1 [H2 [H3 [H4 _]]]]; [vm_compute; auto|].
    repeat split; assumption.
Defined.

(** C10, as amended.  On a dataset of the expected shape, the first record
    of an ignored identifier, in the order of the loops, that carries a
    status for the distribution settles it whatever records follow: the
    identifier leaves the ignore list, the call that reports this status
    is made once and no other match is reported for it.  From then on a
    turn of the loop on this identifier, under any package, fails the
    membership test and changes nothing.  Each record of the identifier
    before that one is without the distribution or without a status; the
    loop examines it, logs the note on the distribution and its package
    or the warning that the status was not found, and leaves the
    identifier on the list. *)
Theorem first_status_settles (w : world) (a : args) (lines : list pystr)
  (all_cves : pyobj) (package cve : pystr) (record st : pyobj)
  (before after : list occurrence) :
  fetched w a lines all_cves ->
  dataset_shape all_cves = true ->
  In cve (filter_lines lines) ->
  occurrences all_cves = before ++ (package, cve, record) :: after ->
  decisive (distribution a) cve before = None ->
  status_of (distribution a) record = Ok (Some st) ->
  In cve (ignored_cves (settle a before (after_fetch a lines)))
  /\ ~ In cve (ignored_cves (snd (run w a)))
  /\ occurs (if Py.eq_str st (lit "resolved") then resolved_call cve
             else unresolved_call cve) (trace (snd (run w a))) = 1
  /\ matches cve (trace (snd (run w a))) = 1
  /\ (forall s other,
        ~ In cve (ignored_cves s) ->
        classify a all_cves other cve s = (Ok tt, s))
  /\ (forall earlier rec,
        In (earlier, cve, rec) before ->
        (status_of (distribution a) rec = Ok None
         /\ In (not_in_call (distribution a) earlier)
               (log_output (trace (snd (run w a)))))
        \/ (status_of (distribution a) rec = Raise KeyError
            /\ In (no_status_call cve)
                  (log_output (trace (snd (run w a)))))).
Proof.
  intros Hf Hshape Hin Hocc Hbefore Hst.
  assert (Hdec : decisive (distribution a) cve (occurrences all_cves)
                 = Some st).
  { rewrite Hocc, decisive_app, Hbefore. simpl.
    now rewrite eqb_refl, Hst. }
  pose proof (run_sound w a (proj1 Hf)) as [[_ Hacc] _].
  destruct (Hacc cve) as [_ [Hone _]].
  pose proof (run_classified Hf Hshape) as Hrun.
  destruct (verdict_state (classified a lines all_cves)) as [Hi [_ Htr]].
  rewrite <- Hrun in Hi, Htr.
  assert (Hgone : ~ In cve (ignored_cves (snd (run w a)))).
  { rewrite Hi, classified_ignored, filter_In, Hdec. simpl.
    intros [_ ?]; discriminate. }
  specialize (Hone Hgone Hin).
  pose proof (settle_reported a (occurrences all_cves)
                (after_fetch a lines) cve
                (filter_lines_NoDup lines) Hin Hdec) as Hrep.
  apply Htr, occurs_In in Hrep.
  split; [|split; [exact Hgone | split; [|split; [exact Hone|split]]]].
  - rewrite settle_ignored by apply filter_lines_NoDup.
    apply filter_In. now rewrite Hbefore.
  - unfold matches in Hone.
    destruct (Py.eq_str st (lit "resolved")); lia.
  - intros s other Hno. rewrite classify_eq. unfold classify_with.
    apply mem_not_In in Hno. now rewrite Hno.
  - intros earlier rec Hearlier.
    assert (Hrec : record_shape rec = true).
    { destruct all_cves as [| | | | | |packages]; try discriminate.
      pose proof (occurrences_shape packages Hshape) as Hall.
      rewrite Forall_forall in Hall.
      apply (Hall (earlier, cve, rec)).
      rewrite Hocc. apply in_or_app. now left. }
    destruct (settle_noted a before (after_fetch a lines) earlier cve rec
                (filter_lines_NoDup lines) Hin Hbefore Hearlier)
      as [Hnote Hwarn].
    assert (Hlater : forall e,
              In e (trace (settle a before (after_fetch a lines))) ->
              In e (trace (snd (run w a)))).
    { intros e He. apply Htr. unfold classified.
      rewrite Hocc, settle_app. now apply settle_trace. }
    destruct (status_of_shape (distribution a) rec Hrec)
      as [Hs|[[st' Hs]|Hs]].
    + left. split; [exact Hs|].
      apply emitted_log_output; [|reflexivity]. now apply Hlater, Hnote.
    + exfalso. apply (proj1 (decisive_None (distribution a) cve before)
                        Hbefore earlier rec Hearlier st' Hs).
    + right. split; [exact Hs|].
      apply emitted_log_output; [|reflexivity]. now apply Hlater, Hwarn.
Qed.

Lemma first_status_settles_witness :
  let all_cves :=
    Sample.two_packages Sample.cve1
      Sample.other_release_record Sample.resolved_record in
  let a := args_of Sample.bullseye in
  let r := Sample.run_on [Sample.cve1] all_cves in
  let before :=
    [(lit "openssl", Sample.cve1, Sample.other_release_record)] in
  In Sample.cve1
     (ignored_cves (settle a before (after_fetch a [Sample.cve1])))
  /\ ~ In Sample.cve1 (ignored_cves (snd r))
  /\ occurs (resolved_call Sample.cve1) (trace (snd r)) = 1
  /\ matches Sample.cve1 (trace (snd r)) = 1
  /\ (forall s other,
        ~ In Sample.cve1 (ignored_cves s) ->
        classify a all_cves other Sample.cve1 s = (Ok tt, s))
  /\ (forall earlier rec,
        In (earlier, Sample.cve1, rec) before ->
        (status_of Sample.bullseye rec = Ok None
         /\ In (not_in_call Sample.bullseye earlier)
               (log_output (trace (snd r))))
        \/ (status_of Sample.bullseye rec = Raise KeyError
            /\ In (no_status_call Sample.cve1)
                  (log_output (trace (snd r))))).
Proof.
  apply (@first_status_settles
           (world_of [Sample.cve1] 200
              (Some (Sample.two_packages Sample.cve1
                       Sample.other_release_record Sample.resolved_record)))
           (args_of Sample.bullseye) [Sample.cve1]
           (Sample.two_packages Sample.cve1
              Sample.other_release_record Sample.resolved_record)
           (lit "curl") Sample.cve1 Sample.resolved_record
           (PStr (lit "resolved"))
           [(lit "openssl", Sample.cve1, Sample.other_release_record)]
           []).
  - split; reflexivity.
  - vm_compute; reflexivity.
  - vm_compute; auto.
  - vm_compute; reflexivity.
  - vm_compute; reflexivity.
  - vm_compute; reflexivity.
Defined.

(** C10 as stated fails: two datasets with the same first record of the
    identifier, a record that does not name bullseye.  The record under the
    second package says [resolved] in one and [open] in the other, and it
    decides: the first run warns and exits with status 1, the second exits
    with status 0.  In the first run two turns of the loop act on the
    identifier. *)
Lemma first_occurrence_does_not_decide :
  let ds1 :=
    Sample.two_packages Sample.cve1
      Sample.other_release_record Sample.resolved_record in
  let ds2 :=
    Sample.two_packages Sample.cve1
      Sample.other_release_record Sample.open_record in
  let r1 := Sample.run_on [Sample.cve1] ds1 in
  let r2 := Sample.run_on [Sample.cve1] ds2 in
  dataset_shape ds1 = true /\ dataset_shape ds2 = true
  /\ hd_error (occurrences ds1) =
       Some (lit "openssl", Sample.cve1, Sample.other_release_record)
  /\ hd_error (occurrences ds2) =
       Some (lit "openssl", Sample.cve1, Sample.other_release_record)
  /\ exit_status (fst r1) = 1%Z
  /\ exit_status (fst r2) = 0%Z
  /\ log_output (trace (snd r1)) =
       [not_in_call Sample.bullseye (lit "openssl");
        resolved_call Sample.cve1]
  /\ log_output (trace (snd r2)) =
       [not_in_call Sample.bullseye (lit "openssl")].
Proof. vm_compute. repeat split. Qed.

(** * Further properties of the script *)

(** ** The exceptions that can leave the loops *)

Lemma getitem_raise (o : pyobj) (k : pystr) (e : exn) :
  Py.getitem o k = Raise e -> e = KeyError \/ e = TypeError.
Proof.
  destruct o as [| | | | | |items]; simpl; try (intros [= <-]; auto).
  destruct (Py.dict_get items k); [discriminate | intros [= <-]; auto].
Qed.

Lemma contains_raise (o : pyobj) (k : pystr) (e : exn) :
  Py.contains o k = Raise e -> e = TypeError.
Proof. destruct o; simpl; congruence. Qed.

Lemma keys_raise (o : pyobj) (e : exn) :
  Py.keys o = Raise e -> e = AttributeError.
Proof. destruct o; simpl; congruence. Qed.

Lemma status_of_raise (dist : pystr) (record : pyobj) (e : exn) :
  status_of dist record = Raise e -> e = KeyError \/ e = TypeError.
Proof.
  unfold status_of.
  destruct (Py.getitem record (lit "releases")) as [rel|e1] eqn:H1;
    cbn [Py.bind]; [|intros [= <-]; eapply getitem_raise; eassumption].
  destruct (Py.contains rel dist) as [[|]|e2] eqn:H2; cbn [Py.bind negb];
    [| discriminate
     | intros [= <-]; right; eapply contains_raise; eassumption].
  destruct (Py.getitem rel dist) as [en|e3] eqn:H3; cbn [Py.bind];
    [|intros [= <-]; eapply getitem_raise; eassumption].
  destruct (Py.getitem en (lit "status")) as [st|e4] eqn:H4; cbn [Py.bind];
    [discriminate | intros [= <-]; eapply getitem_raise; eassumption].
Qed.

Lemma record_at_raise (all_cves : pyobj) (package cve : pystr) (e : exn) :
  record_at all_cves package cve = Raise e -> e = KeyError \/ e = TypeError.
Proof.
  unfold record_at.
  destruct (Py.getitem all_cves package) as [p|e1] eqn:H1; cbn [Py.bind];
    [|intros [= <-]]; eapply getitem_raise; eassumption.
Qed.

(** A turn of the inner loop that raises lets a [TypeError] out and
    leaves the state as it was: the [KeyError] is caught. *)
Lemma classify_raise (a : args) (all_cves : pyobj) (package cve : pystr)
  (s : state) (e : exn) :
  fst (classify a all_cves package cve s) = Raise e ->
  e = TypeError /\ snd (classify a all_cves package cve s) = s.
Proof.
  rewrite classify_eq. unfold classify_with.
  destruct (mem cve (ignored_cves s)); [|discriminate].
  destruct (Py.bind (record_at all_cves package cve)
              (status_of (distribution a))) as [[st|]|e'] eqn:Hf.
  - destruct (Py.eq_str st (lit "resolved")); discriminate.
  - discriminate.
  - assert (He : e' = KeyError \/ e' = TypeError).
    { destruct (record_at all_cves package cve) as [r|e1] eqn:Hr;
        cbn [Py.bind] in Hf.
      - eapply status_of_raise; eassumption.
      - injection Hf as <-. eapply record_at_raise; eassumption. }
    destruct He as [-> | ->]; [discriminate|].
    simpl. intros [= <-]. auto.
Qed.

Lemma for_each_raise {A} (Q : exn -> Prop) (l : list A)
  (body : A -> M unit) :
  (forall x, In x l -> forall s e, fst (body x s) = Raise e -> Q e) ->
  forall s e, fst (for_each l body s) = Raise e -> Q e.
Proof.
  induction l as [|x l IH]; intros Hb s e; simpl.
  - discriminate.
  - unfold bind. destruct (body x s) as [[[]|e'] s'] eqn:Hx.
    + apply IH. intros y Hy. apply Hb. now right.
    + simpl. intros [= <-]. apply (Hb x (or_introl eq_refl) s).
      now rewrite Hx.
Qed.

Lemma dict_get_key (items : list (pystr * pyobj)) (k : pystr) :
  In k (map fst items) -> exists v, Py.dict_get items k = Some v.
Proof.
  induction items as [|[k' v'] items IH]; simpl; [contradiction|].
  destruct (PyStrFacts.eqb_spec k k') as [->|Hn].
  - intros _. now exists v'.
  - intros [H|H]; [congruence | now apply IH].
Qed.

(** The loops end normally, on a [TypeError] or on an [AttributeError]. *)
Lemma classify_all_raise (a : args) (all_cves : pyobj) (s : state)
  (e : exn) :
  fst (classify_all a all_cves s) = Raise e ->
  e = TypeError \/ e = AttributeError.
Proof.
  unfold classify_all, bind at 1, eval.
  destruct all_cves as [| | | | | |items];
    try (simpl; intros [= <-]; now right).
  cbn [Py.keys].
  apply (for_each_raise (fun e => e = TypeError \/ e = AttributeError)).
  clear s e. intros package Hin s e.
  destruct (dict_get_key items package Hin) as [p Hp].
  unfold bind, eval. cbn [Py.getitem]. rewrite Hp. cbn [Py.bind].
  destruct (Py.keys p) as [cves|e2] eqn:Hc.
  - intros H. left. revert H.
    apply (for_each_raise (fun e => e = TypeError)).
    intros cve _ s' e' H. now apply classify_raise in H.
  - simpl. intros [= <-]. right. eapply keys_raise; eassumption.
Qed.

(** ** How a run ends *)

Lemma retrieve_raise (w : world) (s : state) (e : exn) :
  fst (retrieve_debian_data w s) = Raise e ->
  e = RequestException \/ e = JSONDecodeError.
Proof.
  unfold retrieve_debian_data, bind, emit, raise, ret.
  destruct (requests_get w DEBIAN_URL) as [resp|]; simpl;
    [|intros [= <-]; auto].
  destruct (negb _); simpl; [discriminate|].
  destruct (content resp); simpl; [discriminate | intros [= <-]; auto].
Qed.

(** The main block after the file is read either reaches the verdict, in
    a state the request and the loops have led to, or ends before it. *)
Lemma check_eq (w : world) (a : args) (s : state) :
  check w a s =
  match retrieve_debian_data w s with
  | (Ok o, s1) =>
      if Py.is_None o then (Raise (SystemExit 1), s1)
      else
        match classify_all a o s1 with
        | (Ok _, s2) => verdict s2
        | (Raise e, s2) => (Raise e, s2)
        end
  | (Raise e, s1) => (Raise e, s1)
  end.
Proof.
  unfold check, bind at 1.
  destruct (retrieve_debian_data w s) as [[o|e] s1]; [|reflexivity].
  destruct (Py.is_None o); [reflexivity|].
  unfold bind at 1. now destruct (classify_all a o s1) as [[[]|e] s2].
Qed.

Lemma check_split (P0 P : state -> Prop) (w : world) (a : args) :
  (forall s, P0 s -> P (snd (retrieve_debian_data w s))) ->
  (forall all_cves, preserves P (classify_all a all_cves)) ->
  forall s, P0 s ->
    (exists s1, P s1 /\ check w a s = verdict s1)
    \/ (P (snd (check w a s))
        /\ exists e, fst (check w a s) = Raise e /\ aborts e).
Proof.
  intros Hret Hloop s Hs. rewrite check_eq.
  specialize (Hret s Hs). pose proof (retrieve_raise w s) as Hre.
  destruct (retrieve_debian_data w s) as [[o|e] s1]; simpl in Hret, Hre.
  - destruct (Py.is_None o).
    + right. split; [exact Hret|]. exists (SystemExit 1). split; [reflexivity|].
      now left.
    + specialize (Hloop o s1 Hret).
      pose proof (classify_all_raise a o s1) as Hce.
      destruct (classify_all a o s1) as [[[]|e] s2]; simpl in Hloop, Hce.
      * left. now exists s2.
      * right. split; [exact Hloop|]. exists e. split; [reflexivity|].
        destruct (Hce e eq_refl) as [-> | ->]; unfold aborts; auto.
  - right. split; [exact Hret|]. exists e. split; [reflexivity|].
    destruct (Hre e eq_refl) as [-> | ->]; unfold aborts; auto.
Qed.

Lemma aborts_exit (e : exn) : aborts e -> exit_status (Raise e) = 1%Z.
Proof. intros [->|[->|[->|[->| ->]]]]; reflexivity. Qed.

Lemma verdict_result (s : state) :
  fst (verdict s) = Ok tt \/ fst (verdict s) = Raise (SystemExit 1).
Proof.
  rewrite verdict_eq. destruct (resolved s); [now right|].
  destruct (ignored_cves s); [now left | now right].
Qed.

Lemma run_result (w : world) (a : args) :
  fst (run w a) = Ok tt
  \/ fst (run w a) = Raise (SystemExit 1)
  \/ fst (run w a) = Raise OSError
  \/ fst (run w a) = Raise RequestException
  \/ fst (run w a) = Raise JSONDecodeError
  \/ fst (run w a) = Raise TypeError
  \/ fst (run w a) = Raise AttributeError.
Proof.
  rewrite run_eq.
  destruct (open_file w (trivy_ignore a)) as [lines|]; [|simpl; tauto].
  destruct (@check_split (fun _ => True) (fun _ => True) w a
              (fun _ _ => I) (fun _ _ _ => I) (after_read a lines) I)
    as [[s1 [_ ->]]|[_ [e [-> He]]]].
  - destruct (verdict_result s1) as [-> | ->]; tauto.
  - destruct He as [->|[->|[->|[->| ->]]]]; tauto.
Qed.


(** A run that ends with status 0 has read its file and reached the
    verdict with the flag down and the list empty. *)
Lemma run_exit_zero (w : world) (a : args) :
  exit_status (fst (run w a)) = 0%Z ->
  exists lines,
    open_file w (trivy_ignore a) = Some lines
    /\ sound (filter_lines lines) (snd (run w a))
    /\ resolved (snd (run w a)) = false
    /\ ignored_cves (snd (run w a)) = [].
Proof.
  intros Hexit. pose proof (run_sound w a) as Hsound.
  rewrite run_eq in *.
  destruct (open_file w (trivy_ignore a)) as [lines|]; [|discriminate].
  exists lines. split; [reflexivity|].
  split; [now apply Hsound|].
  destruct (@check_split (fun _ => True) (fun _ => True) w a
              (fun _ _ => I) (fun _ _ _ => I) (after_read a lines) I)
    as [[s1 [_ Heq]]|[_ [e [Heq He]]]].
  - rewrite Heq in *. rewrite verdict_exit in Hexit. rewrite verdict_eq.
    destruct (resolved s1) eqn:Hr; [discriminate|].
    destruct (ignored_cves s1) eqn:Hi; [|discriminate]. simpl. auto.
  - rewrite Heq in Hexit. rewrite (aborts_exit He) in Hexit. discriminate.
Qed.

(** X2.  A run whatever the dataset, well formed or not, ends with status
    0 only when it has confirmed every entry of the ignore list: the file
    was read, each entry left the list with one call that reports it found
    and not resolved, no identifier was reported resolved and nothing was
    reported as not found. *)
Theorem success_means_confirmed (w : world) (a : args) :
  exit_status (fst (run w a)) = 0%Z ->
  exists lines,
    open_file w (trivy_ignore a) = Some lines
    /\ fst (run w a) = Ok tt
    /\ resolved (snd (run w a)) = false
    /\ ignored_cves (snd (run w a)) = []
    /\ (forall cve, In cve (filter_lines lines) ->
          matched_unresolved (snd (run w a)) cve)
    /\ (forall cve, ~ In (resolved_call cve) (trace (snd (run w a)))).
Proof.
  intros Hexit. destruct (run_exit_zero w a Hexit) as [lines [Ho [Hs [Hr Hi]]]].
  exists lines. split; [exact Ho|].
  assert (Hno : forall cve, ~ In (resolved_call cve) (trace (snd (run w a)))).
  { intros cve Hin. destruct Hs as [_ Hfl].
    assert (resolved (snd (run w a)) = true) by (apply Hfl; now exists cve).
    congruence. }
  split; [|split; [exact Hr | split; [exact Hi | split; [|exact Hno]]]].
  - destruct (run_result w a) as [H|[H|[H|[H|[H|[H|H]]]]]];
      rewrite H in Hexit |- *; [reflexivity | discriminate ..].
  - intros cve Hin.
    destruct (sound_states cve Hs Hin) as [H|[H|H]]; [exact H| |].
    + exfalso. destruct H as [_ [H1 _]]. apply (Hno cve).
      apply occurs_In. lia.
    + exfalso. destruct H as [H1 _]. rewrite Hi in H1. contradiction.
Qed.

Lemma success_means_confirmed_witness :
  exists lines,
    open_file (world_of [Sample.cve1] 200
                 (Some (Sample.one_package Sample.cve1 Sample.open_record)))
      (trivy_ignore (args_of Sample.bullseye)) = Some lines
    /\ fst (Sample.run_on [Sample.cve1]
              (Sample.one_package Sample.cve1 Sample.open_record)) = Ok tt
    /\ resolved (snd (Sample.run_on [Sample.cve1]
              (Sample.one_package Sample.cve1 Sample.open_record))) = false
    /\ ignored_cves (snd (Sample.run_on [Sample.cve1]
              (Sample.one_package Sample.cve1 Sample.open_record))) = []
    /\ (forall cve, In cve (filter_lines lines) ->
          matched_unresolved
            (snd (Sample.run_on [Sample.cve1]
                    (Sample.one_package Sample.cve1 Sample.open_record))) cve)
    /\ (forall cve,
          ~ In (resolved_call cve)
              (trace (snd (Sample.run_on [Sample.cve1]
                     (Sample.one_package Sample.cve1 Sample.open_record))))).
Proof.
  apply (@success_means_confirmed
           (world_of [Sample.cve1] 200
              (Some (Sample.one_package Sample.cve1 Sample.open_record)))
           (args_of Sample.bullseye)).
  vm_compute; reflexivity.
Defined.

(** X3.  In every run, whatever the dataset, once the warning that an
    identifier is resolved has been logged the process ends with status
    1. *)
Theorem resolved_warning_fails_run (w : world) (a : args) (cve : pystr) :
  In (resolved_call cve) (trace (snd (run w a))) ->
  exit_status (fst (run w a)) = 1%Z.
Proof.
  intros Hin.
  destruct (run_result w a) as [H|[H|[H|[H|[H|[H|H]]]]]];
    try (rewrite H; reflexivity).
  exfalso.
  assert (Hexit : exit_status (fst (run w a)) = 0%Z) by now rewrite H.
  destruct (run_exit_zero w a Hexit) as [lines [_ [[_ Hfl] [Hr _]]]].
  assert (resolved (snd (run w a)) = true) by (apply Hfl; now exists cve).
  congruence.
Qed.

Lemma resolved_warning_fails_run_witness :
  exit_status (fst (Sample.run_on Sample.ignore_file
     (Sample.two_packages Sample.cve1
        Sample.other_release_record Sample.resolved_record))) = 1%Z.
Proof.
  apply (@resolved_warning_fails_run
           (world_of Sample.ignore_file 200
              (Some (Sample.two_packages Sample.cve1
                       Sample.other_release_record Sample.resolved_record)))
           (args_of Sample.bullseye) Sample.cve1).
  vm_compute; auto.
Defined.

(** ** The shape of the trace *)

Lemma loop_call_local (e : event) : loop_call e -> local_event e.
Proof. destruct e; simpl; tauto. Qed.

Lemma loop_call_below (e : event) : loop_call e -> below_error e.
Proof. destruct e as [| | |[] t l]; simpl; tauto. Qed.

Lemma grown_snoc (Q : event -> Prop) (pre : list event) (s : state)
  (e : event) (l : list pystr) (b : bool) :
  Q e -> grown Q pre s ->
  grown Q pre {| ignored_cves := l; resolved := b; trace := trace s ++ [e] |}.
Proof.
  intros He [rest [Ht Hq]]. exists (rest ++ [e]). simpl. split.
  - now rewrite Ht, app_assoc.
  - apply Forall_app. auto.
Qed.

Lemma grown_emit (Q : event -> Prop) (pre : list event) (e : event) :
  Q e -> preserves (grown Q pre) (emit e).
Proof. intros He s Hs. unfold emit; simpl. now apply grown_snoc. Qed.

Lemma grown_classify_all (Q : event -> Prop) (pre : list event) (a : args)
  (all_cves : pyobj) :
  (forall e, loop_call e -> Q e) ->
  preserves (grown Q pre) (classify_all a all_cves).
Proof.
  intros HQ. unfold classify_all.
  apply preserves_bind; [apply preserves_eval|].
  intros packages. apply preserves_for_each. intros package.
  apply preserves_bind; [apply preserves_eval|].
  intros cves. apply preserves_for_each. intros cve s Hs.
  rewrite classify_eq. unfold classify_with.
  destruct (mem cve (ignored_cves s)); [|exact Hs].
  destruct (Py.bind _ _) as [[st|]|e].
  - destruct (Py.eq_str st (lit "resolved")); simpl;
      apply grown_snoc; auto; apply HQ; simpl; discriminate.
  - simpl. apply grown_snoc; auto. apply HQ; simpl; discriminate.
  - destruct e; try exact Hs.
    simpl. apply grown_snoc; auto. apply HQ; simpl; discriminate.
Qed.

Lemma grown_retrieve (Q : event -> Prop) (pre : list event) (w : world) :
  Q (HttpGet DEBIAN_URL) -> Q fetch_failed_print ->
  preserves (grown Q pre) (retrieve_debian_data w).
Proof.
  intros H1 H2. unfold retrieve_debian_data.
  apply preserves_bind; [now apply grown_emit|].
  intros _. destruct (requests_get w DEBIAN_URL) as [resp|];
    [|apply preserves_raise].
  destruct (negb _).
  - apply preserves_bind; [now apply grown_emit | intros _; apply preserves_ret].
  - destruct (content resp); [apply preserves_ret | apply preserves_raise].
Qed.

Lemma grown_verdict (Q : event -> Prop) (pre : list event) :
  (forall l, Q (not_found_call l)) -> preserves (grown Q pre) verdict.
Proof.
  intros HQ s Hs. rewrite verdict_eq. destruct (resolved s); [exact Hs|].
  destruct (ignored_cves s) eqn:Hi; [exact Hs|].
  simpl. now apply grown_snoc.
Qed.

(** X4.  A run opens one file, the one named on the command line, as the
    first thing it does; when the file can be read it then sends one
    request, to the address of the tracker; everything after that is
    printing and logging.  There is no second request and no retry. *)
Theorem one_open_one_request (w : world) (a : args) :
  exists rest,
    trace (snd (run w a)) =
      Open (trivy_ignore a)
      :: match open_file w (trivy_ignore a) with
         | Some _ => HttpGet DEBIAN_URL :: rest
         | None => rest
         end
    /\ Forall local_event rest
    /\ (open_file w (trivy_ignore a) = None -> rest = []).
Proof.
  rewrite run_eq.
  destruct (open_file w (trivy_ignore a)) as [lines|];
    [|exists []; simpl; auto].
  set (pre := [Open (trivy_ignore a); HttpGet DEBIAN_URL]).
  assert (H : grown local_event pre (snd (check w a (after_read a lines)))).
  { assert (Hret : forall s, trace s = [Open (trivy_ignore a)] ->
                     grown local_event pre (snd (retrieve_debian_data w s))).
    { intros s Hs. unfold retrieve_debian_data, bind, emit, raise, ret.
      destruct (requests_get w DEBIAN_URL) as [resp|]; simpl;
        [|exists []; simpl; rewrite Hs; auto].
      destruct (negb _); simpl.
      - exists [fetch_failed_print]. rewrite Hs. simpl. split; auto.
        repeat constructor.
      - destruct (content resp); simpl; exists []; rewrite Hs; auto. }
    destruct (@check_split _ _ w a Hret
                (fun ds => @grown_classify_all local_event pre a ds
                             loop_call_local)
                (after_read a lines) eq_refl)
      as [[s1 [Hs1 ->]]|[Hs _]]; [|exact Hs].
    apply grown_verdict; [intros l; exact I | exact Hs1]. }
  destruct H as [rest [Ht Hq]]. exists rest. split; [exact Ht|].
  split; [exact Hq | discriminate].
Qed.

(** X5.  The report of the identifiers that were not found is the only
    call of [logger.error]; when a run makes it, it is the last event of
    the run, no identifier was found resolved, the list reported is the
    final ignore list, which is not empty, and the run leaves with
    [sys.exit(1)]. *)
Theorem report_is_final (w : world) (a : args) (template : string)
  (l : list fmt_arg) :
  In (LogCall ERROR template l) (trace (snd (run w a))) ->
  fst (run w a) = Raise (SystemExit 1)
  /\ resolved (snd (run w a)) = false
  /\ ignored_cves (snd (run w a)) <> []
  /\ LogCall ERROR template l = not_found_call (ignored_cves (snd (run w a)))
  /\ exists before,
       trace (snd (run w a)) =
         before ++ [not_found_call (ignored_cves (snd (run w a)))]
       /\ Forall below_error before.
Proof.
  rewrite run_eq.
  destruct (open_file w (trivy_ignore a)) as [lines|];
    [|simpl; intros [H|[]]; discriminate].
  assert (Hno : forall s, grown below_error [] s ->
                  ~ In (LogCall ERROR template l) (trace s)).
  { intros s [rest [Ht Hq]] Hin. rewrite Ht in Hin. simpl in Hin.
    rewrite Forall_forall in Hq. apply (Hq _ Hin). }
  assert (H0 : grown below_error [] (after_read a lines)).
  { exists [Open (trivy_ignore a)]. split; [reflexivity|].
    repeat constructor. }
  destruct (@check_split _ _ w a
              (@grown_retrieve below_error [] w I I)
              (fun ds => @grown_classify_all below_error [] a ds
                           loop_call_below)
              (after_read a lines) H0)
    as [[s1 [Hs1 ->]]|[Hs _]]; [|intros Hin; now apply Hno in Hin].
  rewrite verdict_eq. destruct (resolved s1) eqn:Hr;
    [intros Hin; now apply Hno in Hin|].
  destruct (ignored_cves s1) as [|c cs] eqn:Hi;
    [intros Hin; now apply Hno in Hin|].
  simpl. intros Hin. apply in_app_or in Hin.
  destruct Hin as [Hin|[Hin|[]]]; [now apply Hno in Hin|].
  repeat split; try congruence.
  destruct Hs1 as [rest [Ht Hq]]. exists (trace s1). split; [reflexivity|].
  now rewrite Ht.
Qed.

Lemma report_is_final_witness :
  let r := Sample.run_on [Sample.cve1]
             (Sample.one_package Sample.cve1 Sample.other_release_record) in
  fst r = Raise (SystemExit 1)
  /\ resolved (snd r) = false
  /\ ignored_cves (snd r) <> []
  /\ LogCall ERROR "These CVE has not been found: {}"
       [AList [Sample.cve1]] = not_found_call (ignored_cves (snd r))
  /\ exists before,
       trace (snd r) = before ++ [not_found_call (ignored_cves (snd r))]
       /\ Forall below_error before.
Proof.
  apply (@report_is_final
           (world_of [Sample.cve1] 200
              (Some (Sample.one_package Sample.cve1
                       Sample.other_release_record)))
           (args_of Sample.bullseye)
           "These CVE has not been found: {}" [AList [Sample.cve1]]).
  vm_compute; auto.
Defined.

(** ** Failures of the request and datasets that are no dictionary *)

(** X6.  When [requests.get] raises, or answers 200 with a body that is
    not JSON, the run ends on that exception with exit status 1 right
    after the request: the ignore list is as it was read, nothing is
    printed and the logger is not called. *)
Theorem fetch_error_aborts (w : world) (a : args) (lines : list pystr) :
  open_file w (trivy_ignore a) = Some lines ->
  match requests_get w DEBIAN_URL with
  | None => True
  | Some resp => status_code resp = 200%Z /\ content resp = None
  end ->
  run w a =
    (Raise match requests_get w DEBIAN_URL with
           | None => RequestException
           | Some _ => JSONDecodeError
           end,
     after_fetch a lines)
  /\ exit_status (fst (run w a)) = 1%Z.
Proof.
  intros Hopen Hget.
  assert (H : run w a =
    (Raise match requests_get w DEBIAN_URL with
           | None => RequestException
           | Some _ => JSONDecodeError
           end,
     after_fetch a lines)).
  { rewrite run_eq, Hopen, check_eq.
    unfold retrieve_debian_data, bind, emit, raise.
    destruct (requests_get w DEBIAN_URL) as [resp|]; [|reflexivity].
    destruct Hget as [Hc Hb]. rewrite Hc, Hb. reflexivity. }
  rewrite H. split; [reflexivity|].
  now destruct (requests_get w DEBIAN_URL).
Qed.

Lemma fetch_error_aborts_witness :
  let w := world_of Sample.ignore_file 200 None in
  let a := args_of Sample.bullseye in
  run w a = (Raise JSONDecodeError, after_fetch a Sample.ignore_file)
  /\ exit_status (fst (run w a)) = 1%Z.
Proof.
  apply (@fetch_error_aborts (world_of Sample.ignore_file 200 None)
           (args_of Sample.bullseye) Sample.ignore_file).
  - reflexivity.
  - simpl. split; reflexivity.
Defined.

(** X7.  When the body fetched with status 200 is valid JSON but not an
    object, no entry is classified and nothing is logged: on [null] the
    run leaves with [sys.exit(1)] without a message, on any other value
    (a list, a string, a number, a boolean) it dies on the
    [AttributeError] of [keys]. *)
Theorem non_dict_dataset_aborts (w : world) (a : args) (lines : list pystr)
  (all_cves : pyobj) :
  fetched w a lines all_cves ->
  is_dict all_cves = false ->
  run w a =
    (Raise (if Py.is_None all_cves then SystemExit 1 else AttributeError),
     after_fetch a lines)
  /\ exit_status (fst (run w a)) = 1%Z.
Proof.
  intros [Hopen Hget] Hd.
  assert (H : run w a =
    (Raise (if Py.is_None all_cves then SystemExit 1 else AttributeError),
     after_fetch a lines)).
  { rewrite run_eq, Hopen, check_eq.
    unfold retrieve_debian_data, bind, emit, raise. rewrite Hget.
    destruct all_cves; try discriminate; reflexivity. }
  rewrite H. split; [reflexivity|]. now destruct (Py.is_None all_cves).
Qed.

Lemma non_dict_dataset_aborts_witness :
  let w := world_of Sample.ignore_file 200 (Some (PList [])) in
  let a := args_of Sample.bullseye in
  run w a = (Raise AttributeError, after_fetch a Sample.ignore_file)
  /\ exit_status (fst (run w a)) = 1%Z.
Proof.
  apply (@non_dict_dataset_aborts
           (world_of Sample.ignore_file 200 (Some (PList [])))
           (args_of Sample.bullseye) Sample.ignore_file (PList [])).
  - split; reflexivity.
  - reflexivity.
Defined.

(** ** The outcome of a run as a function of the dataset *)

Lemma run_final (w : world) (a : args) (lines : list pystr)
  (all_cves : pyobj) :
  fetched w a lines all_cves -> dataset_shape all_cves = true ->
  ignored_cves (snd (run w a)) =
    filter (fun c => is_unsettled
                       (decisive (distribution a) c (occurrences all_cves)))
           (filter_lines lines)
  /\ resolved (snd (run w a)) =
       existsb (fun c => is_resolved
                           (decisive (distribution a) c
                              (occurrences all_cves)))
               (filter_lines lines)
  /\ exit_status (fst (run w a)) =
       (if resolved (snd (run w a)) then 1%Z
        else match ignored_cves (snd (run w a)) with
             | [] => 0%Z
             | _ :: _ => 1%Z
             end).
Proof.
  intros Hf Hshape. rewrite (run_classified Hf Hshape).
  destruct (verdict_state (classified a lines all_cves)) as [Hi [Hr _]].
  rewrite Hi, Hr, verdict_exit, classified_ignored, classified_resolved.
  auto.
Qed.

(** The warning on a resolved identifier is logged for the entries whose
    first record with a status says [resolved], and for no other
    identifier. *)
Lemma warning_logged_iff (w : world) (a : args) (lines : list pystr)
  (all_cves : pyobj) (cve : pystr) :
  fetched w a lines all_cves -> dataset_shape all_cves = true ->
  In (resolved_call cve) (trace (snd (run w a))) <->
  In cve (filter_lines lines)
  /\ is_resolved (decisive (distribution a) cve (occurrences all_cves))
     = true.
Proof.
  intros Hf Hshape.
  pose proof (run_sound w a (proj1 Hf)) as [[_ Hacc] _].
  destruct (Hacc cve) as [Hon [Hoff Hout]].
  destruct (run_final Hf Hshape) as [Hi _].
  pose proof (run_classified Hf Hshape) as Hrun.
  destruct (verdict_state (classified a lines all_cves)) as [_ [_ Htr]].
  rewrite <- Hrun in Htr.
  split.
  - intros Hin. apply occurs_In in Hin.
    destruct (mem cve (filter_lines lines)) eqn:Hm.
    + apply mem_In in Hm. split; [exact Hm|].
      destruct (decisive (distribution a) cve (occurrences all_cves))
        as [st|] eqn:Hdec.
      * simpl. destruct (Py.eq_str st (lit "resolved")) eqn:Hres;
          [reflexivity|]. exfalso.
        pose proof (settle_reported a (occurrences all_cves)
                      (after_fetch a lines) cve
                      (filter_lines_NoDup lines) Hm Hdec) as Hrep.
        rewrite Hres in Hrep. apply Htr, occurs_In in Hrep.
        assert (Hgone : ~ In cve (ignored_cves (snd (run w a)))).
        { rewrite Hi, filter_In, Hdec. simpl. intros [_ ?]; discriminate. }
        specialize (Hoff Hgone Hm). unfold matches in Hoff. lia.
      * exfalso.
        assert (Hleft : In cve (ignored_cves (snd (run w a)))).
        { rewrite Hi. apply filter_In. now rewrite Hdec. }
        destruct (Hon Hleft) as [_ H0]. unfold matches in H0. lia.
    + exfalso. apply mem_not_In in Hm. specialize (Hout Hm).
      unfold matches in Hout. lia.
  - intros [Hm Hres].
    destruct (decisive (distribution a) cve (occurrences all_cves))
      as [st|] eqn:Hdec; [|discriminate].
    simpl in Hres.
    pose proof (settle_reported a (occurrences all_cves)
                  (after_fetch a lines) cve
                  (filter_lines_NoDup lines) Hm Hdec) as Hrep.
    rewrite Hres in Hrep. now apply Htr.
Qed.

(** X8.  On a dataset of the expected shape the final ignore list is the
    list read from the file, in the order of the file, without the entries
    some record settled; the flag is up exactly when an entry was settled
    as resolved; and the exit status follows from the two. *)
Theorem final_state_characterized (w : world) (a : args)
  (lines : list pystr) (all_cves : pyobj) :
  fetched w a lines all_cves -> dataset_shape all_cves = true ->
  ignored_cves (snd (run w a)) =
    filter (fun c => is_unsettled
                       (decisive (distribution a) c (occurrences all_cves)))
           (filter_lines lines)
  /\ resolved (snd (run w a)) =
       existsb (fun c => is_resolved
                           (decisive (distribution a) c
                              (occurrences all_cves)))
               (filter_lines lines)
  /\ exit_status (fst (run w a)) =
       (if resolved (snd (run w a)) then 1%Z
        else match ignored_cves (snd (run w a)) with
             | [] => 0%Z
             | _ :: _ => 1%Z
             end).
Proof. apply run_final. Qed.

Lemma final_state_characterized_witness :
  let all_cves :=
    Sample.two_packages Sample.cve1
      Sample.other_release_record Sample.open_record in
  let r := Sample.run_on Sample.ignore_file all_cves in
  ignored_cves (snd r) =
    filter (fun c => is_unsettled
                       (decisive Sample.bullseye c (occurrences all_cves)))
           (filter_lines Sample.ignore_file)
  /\ resolved (snd r) =
       existsb (fun c => is_resolved
                           (decisive Sample.bullseye c
                              (occurrences all_cves)))
               (filter_lines Sample.ignore_file)
  /\ exit_status (fst r) =
       (if resolved (snd r) then 1%Z
        else match ignored_cves (snd r) with
             | [] => 0%Z
             | _ :: _ => 1%Z
             end).
Proof.
  apply (@final_state_characterized
           (world_of Sample.ignore_file 200
              (Some (Sample.two_packages Sample.cve1
                       Sample.other_release_record Sample.open_record)))
           (args_of Sample.bullseye) Sample.ignore_file
           (Sample.two_packages Sample.cve1
              Sample.other_release_record Sample.open_record)).
  - split; reflexivity.
  - vm_compute; reflexivity.
Defined.

(** X9.  On a dataset of the expected shape the run ends with status 0 if
    and only if every entry of the ignore list is settled by a record
    whose status for the distribution is not [resolved]. *)
Theorem success_iff_all_unresolved (w : world) (a : args)
  (lines : list pystr) (all_cves : pyobj) :
  fetched w a lines all_cves -> dataset_shape all_cves = true ->
  exit_status (fst (run w a)) = 0%Z <->
  forall cve, In cve (filter_lines lines) ->
    exists st,
      decisive (distribution a) cve (occurrences all_cves) = Some st
      /\ Py.eq_str st (lit "resolved") = false.
Proof.
  intros Hf Hshape. destruct (run_final Hf Hshape) as [Hi [Hr He]].
  rewrite He, Hr, Hi. clear He Hr Hi. split.
  - intros H cve Hin.
    destruct (existsb _ (filter_lines lines)) eqn:Hex; [discriminate|].
    destruct (filter _ (filter_lines lines)) as [|c l] eqn:Hfl;
      [|discriminate].
    destruct (decisive (distribution a) cve (occurrences all_cves))
      as [st|] eqn:Hdec.
    + exists st. split; [reflexivity|].
      apply not_true_is_false. intros Hres.
      assert (Ht : existsb (fun c => is_resolved
                     (decisive (distribution a) c (occurrences all_cves)))
                     (filter_lines lines) = true).
      { apply existsb_exists. exists cve. now rewrite Hdec. }
      congruence.
    + exfalso.
      assert (Hc : In cve (filter (fun c => is_unsettled
                     (decisive (distribution a) c (occurrences all_cves)))
                     (filter_lines lines))).
      { apply filter_In. now rewrite Hdec. }
      now rewrite Hfl in Hc.
  - intros Hall.
    replace (existsb _ (filter_lines lines)) with false.
    + destruct (filter _ (filter_lines lines)) as [|c l] eqn:Hfl;
        [reflexivity|]. exfalso.
      assert (Hc : In c (c :: l)) by now left.
      rewrite <- Hfl in Hc. apply filter_In in Hc. destruct Hc as [Hc Hu].
      destruct (Hall c Hc) as [st [Hd _]]. rewrite Hd in Hu. discriminate.
    + symmetry. apply not_true_is_false. intros H.
      apply existsb_exists in H. destruct H as [c [Hc Hres]].
      destruct (Hall c Hc) as [st [Hd Hs]]. rewrite Hd in Hres.
      simpl in Hres. congruence.
Qed.

Lemma success_iff_all_unresolved_witness :
  let all_cves := Sample.one_package Sample.cve1 Sample.open_record in
  exit_status (fst (Sample.run_on [Sample.cve1] all_cves)) = 0%Z <->
  forall cve, In cve (filter_lines [Sample.cve1]) ->
    exists st,
      decisive Sample.bullseye cve (occurrences all_cves) = Some st
      /\ Py.eq_str st (lit "resolved") = false.
Proof.
  apply (@success_iff_all_unresolved
           (world_of [Sample.cve1] 200
              (Some (Sample.one_package Sample.cve1 Sample.open_record)))
           (args_of Sample.bullseye) [Sample.cve1]
           (Sample.one_package Sample.cve1 Sample.open_record)).
  - split; reflexivity.
  - vm_compute; reflexivity.
Defined.

(** X10.  On a dataset of the expected shape the run logs the warning
    that an identifier is resolved for exactly the entries of the ignore
    list whose first record with a status for the distribution says
    [resolved]: never for an identifier that is not on the list, never for
    an entry settled as not resolved at an earlier record. *)
Theorem warning_iff_resolved (w : world) (a : args) (lines : list pystr)
  (all_cves : pyobj) (cve : pystr) :
  fetched w a lines all_cves -> dataset_shape all_cves = true ->
  In (resolved_call cve) (log_output (trace (snd (run w a)))) <->
  In cve (filter_lines lines)
  /\ is_resolved (decisive (distribution a) cve (occurrences all_cves))
     = true.
Proof.
  intros Hf Hshape. rewrite <- (warning_logged_iff cve Hf Hshape).
  unfold log_output. rewrite filter_In. split; [tauto|].
  intros H; split; [exact H | reflexivity].
Qed.

Lemma warning_iff_resolved_witness :
  let all_cves :=
    Sample.two_packages Sample.cve1
      Sample.open_record Sample.resolved_record in
  In (resolved_call Sample.cve1)
     (log_output (trace (snd (Sample.run_on [Sample.cve1] all_cves)))) <->
  In Sample.cve1 (filter_lines [Sample.cve1])
  /\ is_resolved (decisive Sample.bullseye Sample.cve1
                    (occurrences all_cves)) = true.
Proof.
  apply (@warning_iff_resolved
           (world_of [Sample.cve1] 200
              (Some (Sample.two_packages Sample.cve1
                       Sample.open_record Sample.resolved_record)))
           (args_of Sample.bullseye) [Sample.cve1]
           (Sample.two_packages Sample.cve1
              Sample.open_record Sample.resolved_record) Sample.cve1).
  - split; reflexivity.
  - vm_compute; reflexivity.
Defined.

(** ** The order of the ignore file, and the records of other identifiers *)

Lemma existsb_Permutation {A} (f : A -> bool) (l1 l2 : list A) :
  Permutation l1 l2 -> existsb f l1 = existsb f l2.
Proof.
  induction 1 as [|x l1 l2 _ IH|x y l|l1 l2 l3 _ IH1 _ IH2]; simpl.
  - reflexivity.
  - now rewrite IH.
  - destruct (f x), (f y); reflexivity.
  - congruence.
Qed.

Lemma filter_Permutation {A} (f : A -> bool) (l1 l2 : list A) :
  Permutation l1 l2 -> Permutation (filter f l1) (filter f l2).
Proof.
  induction 1 as [|x l1 l2 _ IH|x y l|l1 l2 l3 _ IH1 _ IH2]; simpl.
  - constructor.
  - destruct (f x); [now constructor | assumption].
  - destruct (f x), (f y); try apply Permutation_refl. constructor.
  - eapply Permutation_trans; eassumption.
Qed.

(** X11.  The order of the entries in the ignore file does not change the
    verdict: two runs on the same dataset of the expected shape, whose
    ignore files hold the same entries in another order, end with the same
    exit status and the same flag, and leave the same entries unmatched. *)
Theorem entry_order_irrelevant (w1 w2 : world) (a : args)
  (lines1 lines2 : list pystr) (all_cves : pyobj) :
  fetched w1 a lines1 all_cves ->
  fetched w2 a lines2 all_cves ->
  dataset_shape all_cves = true ->
  Permutation (filter_lines lines1) (filter_lines lines2) ->
  exit_status (fst (run w1 a)) = exit_status (fst (run w2 a))
  /\ resolved (snd (run w1 a)) = resolved (snd (run w2 a))
  /\ Permutation (ignored_cves (snd (run w1 a)))
                 (ignored_cves (snd (run w2 a))).
Proof.
  intros Hf1 Hf2 Hshape Hperm.
  destruct (run_final Hf1 Hshape) as [Hi1 [Hr1 He1]].
  destruct (run_final Hf2 Hshape) as [Hi2 [Hr2 He2]].
  assert (Hr : resolved (snd (run w1 a)) = resolved (snd (run w2 a))).
  { rewrite Hr1, Hr2. now apply existsb_Permutation. }
  assert (Hi : Permutation (ignored_cves (snd (run w1 a)))
                           (ignored_cves (snd (run w2 a)))).
  { rewrite Hi1, Hi2. now apply filter_Permutation. }
  split; [|split; assumption].
  rewrite He1, He2, Hr. destruct (resolved (snd (run w2 a))); [reflexivity|].
  destruct (ignored_cves (snd (run w1 a))) as [|c1 l1];
    destruct (ignored_cves (snd (run w2 a))) as [|c2 l2]; try reflexivity.
  - apply Permutation_nil in Hi. discriminate.
  - apply Permutation_sym, Permutation_nil in Hi. discriminate.
Qed.

Lemma entry_order_irrelevant_witness :
  let all_cves := Sample.one_package Sample.cve1 Sample.open_record in
  let r1 := Sample.run_on [Sample.cve1; Sample.cve2] all_cves in
  let r2 := Sample.run_on [Sample.cve2; Sample.cve1] all_cves in
  exit_status (fst r1) = exit_status (fst r2)
  /\ resolved (snd r1) = resolved (snd r2)
  /\ Permutation (ignored_cves (snd r1)) (ignored_cves (snd r2)).
Proof.
  apply (@entry_order_irrelevant
           (world_of [Sample.cve1; Sample.cve2] 200
              (Some (Sample.one_package Sample.cve1 Sample.open_record)))
           (world_of [Sample.cve2; Sample.cve1] 200
              (Some (Sample.one_package Sample.cve1 Sample.open_record)))
           (args_of Sample.bullseye)
           [Sample.cve1; Sample.cve2] [Sample.cve2; Sample.cve1]
           (Sample.one_package Sample.cve1 Sample.open_record)).
  - split; reflexivity.
  - split; reflexivity.
  - vm_compute; reflexivity.
  - vm_compute. apply perm_swap.
Defined.

Lemma decisive_records_of (dist cve : pystr) (occs : list occurrence) :
  decisive dist cve occs = decisive dist cve (records_of cve occs).
Proof.
  induction occs as [|[[p c] r] occs IH]; simpl; [reflexivity|].
  destruct (PyStr.eqb cve c) eqn:He; simpl; [|exact IH].
  rewrite He. now rewrite IH.
Qed.

(** X12.  What happens to an entry depends on the records of that
    identifier only: two runs with the same ignore file, on two datasets
    of the expected shape that hold the same records for the identifier in
    the same order, and differ at will in the records of every other
    identifier, leave the entry on the list or take it off alike, and log
    the warning that it is resolved alike. *)
Theorem own_records_decide (w1 w2 : world) (a : args) (lines : list pystr)
  (ds1 ds2 : pyobj) (cve : pystr) :
  fetched w1 a lines ds1 -> dataset_shape ds1 = true ->
  fetched w2 a lines ds2 -> dataset_shape ds2 = true ->
  records_of cve (occurrences ds1) = records_of cve (occurrences ds2) ->
  (In cve (ignored_cves (snd (run w1 a))) <->
   In cve (ignored_cves (snd (run w2 a))))
  /\ (In (resolved_call cve) (trace (snd (run w1 a))) <->
      In (resolved_call cve) (trace (snd (run w2 a)))).
Proof.
  intros Hf1 Hs1 Hf2 Hs2 Hrec.
  assert (Hdec : decisive (distribution a) cve (occurrences ds1) =
                 decisive (distribution a) cve (occurrences ds2)).
  { rewrite (decisive_records_of _ _ (occurrences ds1)), Hrec.
    symmetry. apply decisive_records_of. }
  split.
  - destruct (run_final Hf1 Hs1) as [-> _].
    destruct (run_final Hf2 Hs2) as [-> _].
    rewrite !filter_In, Hdec. reflexivity.
  - rewrite (warning_logged_iff cve Hf1 Hs1), (warning_logged_iff cve Hf2 Hs2).
    now rewrite Hdec.
Qed.

Lemma own_records_decide_witness :
  let ds1 :=
    PDict [(lit "openssl", PDict [(Sample.cve1, Sample.resolved_record);
                                  (Sample.cve2, Sample.open_record)])] in
  let ds2 :=
    PDict [(lit "openssl", PDict [(Sample.cve1, Sample.resolved_record)]);
           (lit "curl", PDict [(Sample.cve2, Sample.other_release_record)])] in
  let r1 := Sample.run_on Sample.ignore_file ds1 in
  let r2 := Sample.run_on Sample.ignore_file ds2 in
  (In Sample.cve1 (ignored_cves (snd r1)) <->
   In Sample.cve1 (ignored_cves (snd r2)))
  /\ (In (resolved_call Sample.cve1) (trace (snd r1)) <->
      In (resolved_call Sample.cve1) (trace (snd r2))).
Proof.
  intros ds1 ds2.
  apply (@own_records_decide
           (world_of Sample.ignore_file 200 (Some ds1))
           (world_of Sample.ignore_file 200 (Some ds2))
           (args_of Sample.bullseye) Sample.ignore_file ds1 ds2 Sample.cve1).
  - split; reflexivity.
  - vm_compute; reflexivity.
  - split; reflexivity.
  - vm_compute; reflexivity.
  - vm_compute; reflexivity.
Defined.

(** ** Identifiers the dataset does not know *)

Lemma settle_untracked (a : args) (occs : list occurrence) (s : state) :
  (forall occ, In occ occs -> ~ In (snd (fst occ)) (ignored_cves s)) ->
  settle a occs s = s.
Proof.
  induction occs as [|occ occs IH]; intros H; [reflexivity|].
  simpl. unfold visit at 1, classify_with.
  assert (Hm : mem (snd (fst occ)) (ignored_cves s) = false).
  { apply mem_not_In, H. now left. }
  rewrite Hm. simpl. apply IH. intros o Ho. apply H. now right.
Qed.

(** X13.  When no entry of the ignore list occurs in a dataset of the
    expected shape, the dataset changes nothing: with an empty list the
    run ends normally and logs nothing; otherwise its one log record is
    the report of the whole list, in the order of the file, and it leaves
    with [sys.exit(1)]. *)
Theorem unknown_entries_reported (w : world) (a : args)
  (lines : list pystr) (all_cves : pyobj) :
  fetched w a lines all_cves -> dataset_shape all_cves = true ->
  (forall package cve record,
     In (package, cve, record) (occurrences all_cves) ->
     ~ In cve (filter_lines lines)) ->
  run w a =
    match filter_lines lines with
    | [] => (Ok tt, after_fetch a lines)
    | _ :: _ =>
        (Raise (SystemExit 1),
         {| ignored_cves := filter_lines lines;
            resolved := false;
            trace := [Open (trivy_ignore a); HttpGet DEBIAN_URL;
                      not_found_call (filter_lines lines)] |})
    end.
Proof.
  intros Hf Hshape Hno. rewrite (run_classified Hf Hshape).
  unfold classified. rewrite settle_untracked.
  - rewrite verdict_eq. simpl.
    destruct (filter_lines lines); reflexivity.
  - intros [[p c] r] Hin. simpl. now apply (Hno p c r).
Qed.

Lemma unknown_entries_reported_witness :
  let w := world_of Sample.ignore_file 200 (Some (PDict [])) in
  let a := args_of Sample.bullseye in
  run w a =
    match filter_lines Sample.ignore_file with
    | [] => (Ok tt, after_fetch a Sample.ignore_file)
    | _ :: _ =>
        (Raise (SystemExit 1),
         {| ignored_cves := filter_lines Sample.ignore_file;
            resolved := false;
            trace := [Open (trivy_ignore a); HttpGet DEBIAN_URL;
                      not_found_call (filter_lines Sample.ignore_file)] |})
    end.
Proof.
  apply (@unknown_entries_reported
           (world_of Sample.ignore_file 200 (Some (PDict [])))
           (args_of Sample.bullseye) Sample.ignore_file (PDict [])).
  - split; reflexivity.
  - reflexivity.
  - simpl. intros package cve record [].
Defined.

(** ** More on the ignore-list reader *)

Lemma lstrip_head (s : pystr) :
  lstrip s = []
  \/ exists c t, lstrip s = c :: t /\ isspace c = false.
Proof.
  induction s as [|c s IH]; simpl; [now left|].
  destruct (isspace c) eqn:Hc; [exact IH|].
  right. now exists c, s.
Qed.

Lemma lstrip_snoc (l : pystr) (c : N) :
  isspace c = false -> lstrip (l ++ [c]) = lstrip l ++ [c].
Proof.
  intros Hc. induction l as [|d l IH]; simpl.
  - now rewrite Hc.
  - destruct (isspace d); [exact IH | reflexivity].
Qed.

Lemma lstrip_lstrip (s : pystr) : lstrip (lstrip s) = lstrip s.
Proof.
  destruct (lstrip_head s) as [->|[c [t [-> Hc]]]]; simpl;
    [reflexivity | now rewrite Hc].
Qed.

Lemma strip_idempotent (s : pystr) : strip (strip s) = strip s.
Proof.
  unfold strip, rstrip.
  destruct (lstrip_head s) as [->|[c [t [-> Hc]]]]; [reflexivity|].
  set (V := lstrip (rev t) ++ [c]).
  assert (H1 : lstrip (rev (c :: t)) = V).
  { simpl. now apply lstrip_snoc. }
  rewrite H1.
  assert (H2 : lstrip (rev V) = rev V).
  { unfold V. rewrite rev_app_distr. simpl. now rewrite Hc. }
  rewrite H2, rev_involutive.
  assert (H3 : lstrip V = V).
  { unfold V. rewrite lstrip_snoc by exact Hc. now rewrite lstrip_lstrip. }
  now rewrite H3.
Qed.

Lemma first_occurrences_NoDup_id (l : list pystr) :
  NoDup l -> first_occurrences l = l.
Proof.
  induction 1 as [|x l Hx _ IH]; simpl; [reflexivity|].
  rewrite IH. f_equal. apply forallb_filter_id, forallb_forall.
  intros y Hy. apply negb_true_iff, eqb_neq. intros ->. contradiction.
Qed.

(** X14.  The entries the reader returns carry no blank at either end,
    and reading them again gives them back: the reader is idempotent. *)
Theorem reader_idempotent (lines : list pystr) :
  Forall (fun x => strip x = x) (filter_lines lines)
  /\ filter_lines (filter_lines lines) = filter_lines lines.
Proof.
  assert (Htrim : Forall (fun x => strip x = x) (filter_lines lines)).
  { apply Forall_forall. intros x Hx. apply filter_lines_In in Hx.
    destruct Hx as [line [_ [-> _]]]. apply strip_idempotent. }
  split; [exact Htrim|].
  rewrite (filter_lines_spec (filter_lines lines)). unfold ignore_entries.
  rewrite Forall_forall in Htrim.
  rewrite (map_ext_in strip (fun x => x)) by exact Htrim.
  rewrite map_id, forallb_filter_id.
  - apply first_occurrences_NoDup_id, filter_lines_NoDup.
  - apply forallb_forall. intros x Hx. apply filter_lines_In in Hx.
    now destruct Hx as [line [_ [_ Hs]]].
Qed.

(** X15.  Reading two files one after the other as one: the entries of
    the first part, then the entries of the second part that the first
    part does not hold. *)
Theorem reader_concatenation (lines1 lines2 : list pystr) :
  filter_lines (lines1 ++ lines2) =
  filter_lines lines1
  ++ filter (fun x => negb (mem x (filter_lines lines1)))
            (filter_lines lines2).
Proof.
  unfold filter_lines at 1. rewrite fold_left_app.
  change (fold_left filter_line lines1 []) with (filter_lines lines1).
  rewrite fold_filter_line, first_occurrences_filter.
  now rewrite (filter_lines_spec lines2).
Qed.

(** ** An empty ignore list *)

Lemma classify_off_list (a : args) (all_cves : pyobj) (package cve : pystr)
  (s : state) :
  ~ In cve (ignored_cves s) ->
  classify a all_cves package cve s = (Ok tt, s).
Proof.
  intros H. rewrite classify_eq. unfold classify_with.
  apply mem_not_In in H. now rewrite H.
Qed.

Lemma classify_all_empty (a : args) (packages : list (pystr * pyobj))
  (s : state) :
  ignored_cves s = [] ->
  forallb is_dict (map snd packages) = true ->
  classify_all a (PDict packages) s = (Ok tt, s).
Proof.
  intros Hempty Hdicts. unfold classify_all, bind at 1, eval. cbn [Py.keys].
  assert (H : forall l, incl l (map fst packages) ->
    for_each l (fun package =>
      cves <- eval (Py.bind (Py.getitem (PDict packages) package) Py.keys) ;;
      for_each cves (classify a (PDict packages) package)) s = (Ok tt, s)).
  { induction l as [|k l IH]; intros Hl; [reflexivity|].
    simpl for_each. unfold bind at 1.
    destruct (dict_get_key packages k (Hl k (or_introl eq_refl)))
      as [v Hv].
    assert (Hd : is_dict v = true).
    { rewrite forallb_forall in Hdicts. apply Hdicts.
      apply in_map_iff. exists (k, v). split; [reflexivity|].
      now apply dict_get_In. }
    destruct v as [| | | | | |cves]; try discriminate.
    unfold bind at 1, eval. cbn [Py.getitem]. rewrite Hv. cbn [Py.bind Py.keys].
    assert (Hin : for_each (map fst cves)
                    (classify a (PDict packages) k) s = (Ok tt, s)).
    { induction (map fst cves) as [|c cs IHc]; [reflexivity|].
      simpl. unfold bind. rewrite classify_off_list; [exact IHc|].
      rewrite Hempty. intros []. }
    rewrite Hin. apply IH. intros x Hx. apply Hl. now right. }
  apply H, incl_refl.
Qed.

(** X16.  With an ignore list that holds no entry the run never reads a
    record: whatever the records are, well formed or not, on a dataset
    that maps its packages to dictionaries the run ends normally, with
    status 0, and logs nothing. *)
Theorem empty_list_reads_no_record (w : world) (a : args)
  (lines : list pystr) (packages : list (pystr * pyobj)) :
  fetched w a lines (PDict packages) ->
  filter_lines lines = [] ->
  forallb is_dict (map snd packages) = true ->
  run w a = (Ok tt, after_fetch a lines)
  /\ exit_status (fst (run w a)) = 0%Z
  /\ log_output (trace (snd (run w a))) = [].
Proof.
  intros [Hopen Hget] Hempty Hdicts.
  assert (H : run w a = (Ok tt, after_fetch a lines)).
  { rewrite run_eq, Hopen, check_eq.
    unfold retrieve_debian_data, bind, emit, raise, ret. rewrite Hget.
    cbn -[classify_all verdict after_read].
    change {| ignored_cves := ignored_cves (after_read a lines);
              resolved := resolved (after_read a lines);
              trace := trace (after_read a lines) ++ [HttpGet DEBIAN_URL] |}
      with (after_fetch a lines).
    rewrite classify_all_empty; [|exact Hempty | exact Hdicts].
    rewrite verdict_eq. unfold after_fetch. simpl. now rewrite Hempty. }
  rewrite H. repeat split.
Qed.

Lemma empty_list_reads_no_record_witness :
  let packages :=
    [(lit "openssl", PDict [(Sample.cve1, PInt 7);
                            (Sample.cve2, PList [])])] in
  let w := world_of [lit "# nothing ignored"] 200 (Some (PDict packages)) in
  let a := args_of Sample.bullseye in
  run w a = (Ok tt, after_fetch a [lit "# nothing ignored"])
  /\ exit_status (fst (run w a)) = 0%Z
  /\ log_output (trace (snd (run w a))) = [].
Proof.
  intros packages.
  apply (@empty_list_reads_no_record
           (world_of [lit "# nothing ignored"] 200 (Some (PDict packages)))
           (args_of Sample.bullseye) [lit "# nothing ignored"] packages).
  - split; reflexivity.
  - reflexivity.
  - reflexivity.
Defined.
